(** * big_query: a shallow embedding of the configuration resolver, the table
    descriptors and the BigQuery wrapper, with the properties of their
    specification.

    The Python sources embedded here are
      - src/config/config.py   ([cfg_item], class [Config]),
      - src/table.py           (class [Table], configuration only),
      - src/bigquery/table.py  (class [Table] with overrides and caching),
      - src/bigquery.py        (class [BigQuery]).

    Python objects live in a heap of attribute dictionaries, so that the
    singleton slot, the cached attributes and the attributes injected by
    [attr_columns] alias exactly as in the interpreter.  Effects are threaded
    through a state-and-exception monad over a [world].

    The remote service, the client library and pandas are not part of the
    repository.  What the service answers to a request, what the library
    answers to a constructor call and what [pd.to_datetime] makes of a column
    are parameters: each may return or raise. *)

From Stdlib Require Import ZArith Ascii String List Lia.
From stdpp Require Import base option gmap strings list.

Open Scope string_scope.

(** ** Values and exceptions *)

(** What [json.load] produces, which is also everything the descriptors store
    in their attributes.  JSON [null] is Python's [None].  Numbers are kept as
    integers: no property below looks inside a number. *)
#[local] Unset Elimination Schemes.
Inductive pyval : Type :=
| PNone
| PBool (b : bool)
| PInt (n : Z)
| PStr (s : string)
| PList (items : list pyval)
| PDict (entries : list (string * pyval)).
#[local] Set Elimination Schemes.

(** The exceptions that can travel through this code.  [PlainException] is
    the bare [Exception] raised by [Config.__init__]; [NotFound] is
    [google.cloud.exceptions.NotFound]; [RemoteError] stands for every other
    failure of the remote service (authentication, permission, quota, write
    guard ...). *)
Inductive exn : Type :=
| KeyError (key : pyval)
| IndexError
| TypeError
| AttributeError (attr : string)
| ValueError
| PlainException (msg : string)
| OSError
| JSONDecodeError
| NotFound
| RemoteError (code : Z).

Definition is_NotFound (e : exn) : bool :=
  match e with NotFound => true | _ => false end.

(** [x is None] *)
Definition is_None (v : pyval) : bool :=
  match v with PNone => true | _ => false end.

(** [v == s] for a string literal [s]: only an equal [str] compares equal. *)
Definition py_eq_str (v : pyval) (s : string) : bool :=
  match v with PStr s' => String.eqb s' s | _ => false end.

(** Lookup in a dictionary produced by [json.load]. *)
Fixpoint dict_get (k : string) (d : list (string * pyval)) : option pyval :=
  match d with
  | [] => None
  | (k', v) :: d' => if String.eqb k' k then Some v else dict_get k d'
  end.

(** [seq[i]] for a sequence of length [n]: the position a (possibly
    negative) index denotes, if it is in range. *)
Definition py_index (n : nat) (i : Z) : option nat :=
  if (0 <=? i)%Z then
    if (i <? Z.of_nat n)%Z then Some (Z.to_nat i) else None
  else
    if (- Z.of_nat n <=? i)%Z then Some (Z.to_nat (Z.of_nat n + i)) else None.

(** The one-character strings of a string: what indexing and iterating a
    [str] yield. *)
Fixpoint chars (s : string) : list pyval :=
  match s with
  | EmptyString => []
  | String c s' => PStr (String c EmptyString) :: chars s'
  end.

Definition seq_get (l : list pyval) (i : Z) : exn + pyval :=
  match py_index (length l) i with
  | Some n =>
      match nth_error l n with
      | Some v => inr v
      | None => inl IndexError
      end
  | None => inl IndexError
  end.

(** [container[key]].  Dictionaries from JSON have string keys only, so any
    other hashable key is missing and an unhashable one is a [TypeError];
    lists and strings take integer indices ([bool] is an [int]); the other
    values are not subscriptable. *)
Definition subscript (container key : pyval) : exn + pyval :=
  match container with
  | PDict d =>
      match key with
      | PStr k =>
          match dict_get k d with
          | Some v => inr v
          | None => inl (KeyError key)
          end
      | PList _ | PDict _ => inl TypeError
      | _ => inl (KeyError key)
      end
  | PList l =>
      match key with
      | PInt i => seq_get l i
      | PBool b => seq_get l (if b then 1 else 0)%Z
      | _ => inl TypeError
      end
  | PStr s =>
      match key with
      | PInt i => seq_get (chars s) i
      | PBool b => seq_get (chars s) (if b then 1 else 0)%Z
      | _ => inl TypeError
      end
  | _ => inl TypeError
  end.

(** [for x in v]: the elements a [for] loop visits, or the [TypeError] of a
    value that is not iterable. *)
Definition py_iter (v : pyval) : exn + list pyval :=
  match v with
  | PList l => inr l
  | PDict d => inr (map (fun kv => PStr (fst kv)) d)
  | PStr s => inr (chars s)
  | _ => inl TypeError
  end.

(** ** Tabular data (pandas) *)

(** A cell of a column: text, an integer, a timestamp (nanoseconds since the
    epoch), the missing timestamp, or a missing value. *)
Inductive cell : Type :=
| CStr (s : string)
| CInt (n : Z)
| CTimestamp (ns : Z)
| CNaT
| CMissing.

Definition series : Type := list cell.

(** A [DataFrame]: its labelled columns, in order. *)
Definition DataFrame : Type := list (string * series).

(** ** The remote service *)

Inductive WriteDisposition : Type := WRITE_APPEND | WRITE_EMPTY | WRITE_TRUNCATE.

(** The objects of the client library are known here by the arguments they
    were constructed from; what an object makes of its arguments is the
    library's business.  Whether a construction returns or raises is decided
    by the library too: see [library_call] below. *)

(** [bigquery.LoadJobConfig(schema=..., write_disposition=...)] *)
Record LoadJobConfig : Type := mkLoadJobConfig {
  job_schema : pyval;
  write_disposition : WriteDisposition
}.

(** [bigquery.Dataset(dataset_id)] with its [location] attribute; a fresh
    [Dataset] has no location. *)
Record Dataset : Type := mkDataset {
  ds_id : pyval;
  ds_location : option string
}.

(** [bigquery.Table(table_id, schema=schema)]: a local object. *)
Record BQTable : Type := mkBQTable {
  bq_table_id : pyval;
  bq_schema : pyval
}.

(** The constructors of the client library that the wrapper calls.  The
    library is not part of the repository, so its answer to each call is a
    parameter of the world: the object, or the error the constructor
    raises. *)
Inductive library_call : Type :=
| NewTable (table_id schema : pyval)
| NewDataset (dataset_id : pyval)
| NewLoadJobConfig (schema : pyval) (write_disposition : WriteDisposition)
| NewSchemaField (name field_type mode description : pyval).

(** The requests the wrapper sends through its client session. *)
Inductive remote_call : Type :=
| GetTable (table_id : pyval)
| GetDataset (dataset_id : pyval)
| CreateDataset (dataset : Dataset)
| LoadTableFromDataframe (data : DataFrame) (table_id : pyval) (cfg : LoadJobConfig)
| JobResult.

(** ** The world *)

(** [Config], the [Table] of src/table.py and the [Table] of
    src/bigquery/table.py. *)
Inductive pyclass : Type := ConfigClass | PlainTableClass | TableClass.

(** An instance: its class and its [__dict__]. *)
Record pyobj : Type := mkObj {
  cls : pyclass;
  attrs : gmap string pyval
}.

(** Everything the program reads or changes.
    - [config_dir] is [os.path.dirname(__file__)] of the config module;
    - [fs path] is what [open(path)] followed by [json.load] yields;
    - [heap] holds the instances, [next_loc] is the next fresh address;
    - [Config_instance] is the class attribute [Config.__instance];
    - [remote] is the remote service: given the requests answered so far
      and a new request, it answers [None] (success) or the error it raises;
    - [library] is the client library: for a constructor call it answers
      [None] (the object is built) or the error the constructor raises;
    - [cfg_calls], [file_reads], [remote_log] and [stdout] record, in
      order, the calls of [cfg_item], the files opened, the requests sent and
      the lines printed. *)
Record world : Type := mkWorld {
  config_dir : string;
  fs : string -> exn + pyval;
  heap : gmap nat pyobj;
  next_loc : nat;
  Config_instance : option nat;
  remote : list remote_call -> remote_call -> option exn;
  library : library_call -> option exn;
  cfg_calls : list (list pyval);
  file_reads : list string;
  remote_log : list remote_call;
  stdout : list string
}.

Definition set_heap (h : gmap nat pyobj) (w : world) : world :=
  mkWorld (config_dir w) (fs w) h (next_loc w) (Config_instance w) (remote w)
          (library w) (cfg_calls w) (file_reads w) (remote_log w) (stdout w).

Definition set_next_loc (n : nat) (w : world) : world :=
  mkWorld (config_dir w) (fs w) (heap w) n (Config_instance w) (remote w)
          (library w) (cfg_calls w) (file_reads w) (remote_log w) (stdout w).

Definition set_Config_instance (i : option nat) (w : world) : world :=
  mkWorld (config_dir w) (fs w) (heap w) (next_loc w) i (remote w)
          (library w) (cfg_calls w) (file_reads w) (remote_log w) (stdout w).

Definition set_cfg_calls (c : list (list pyval)) (w : world) : world :=
  mkWorld (config_dir w) (fs w) (heap w) (next_loc w) (Config_instance w) (remote w)
          (library w) c (file_reads w) (remote_log w) (stdout w).

Definition set_file_reads (r : list string) (w : world) : world :=
  mkWorld (config_dir w) (fs w) (heap w) (next_loc w) (Config_instance w) (remote w)
          (library w) (cfg_calls w) r (remote_log w) (stdout w).

Definition set_remote_log (l : list remote_call) (w : world) : world :=
  mkWorld (config_dir w) (fs w) (heap w) (next_loc w) (Config_instance w) (remote w)
          (library w) (cfg_calls w) (file_reads w) l (stdout w).

Definition set_stdout (o : list string) (w : world) : world :=
  mkWorld (config_dir w) (fs w) (heap w) (next_loc w) (Config_instance w) (remote w)
          (library w) (cfg_calls w) (file_reads w) (remote_log w) o.

(** ** The monad of Python statements *)

(** A computation either raises or returns, and leaves a world behind in
    both cases. *)
Definition M (A : Type) : Type := world -> (exn + A) * world.

Definition ret {A} (a : A) : M A := fun w => (inr a, w).
Definition raise {A} (e : exn) : M A := fun w => (inl e, w).

Definition bind {A B} (m : M A) (k : A -> M B) : M B :=
  fun w =>
    match m w with
    | (inr a, w') => k a w'
    | (inl e, w') => (inl e, w')
    end.

Notation "'do' x <- m ; k" := (bind m (fun x => k))
  (at level 10, x name, m at level 100, k at level 200).
Notation "m ;; k" := (bind m (fun _ => k))
  (at level 100, k at level 200, right associativity).

(** [try: body except NotFound: handler] *)
Definition try_except_NotFound {A} (body handler : M A) : M A :=
  fun w =>
    match body w with
    | (inl e, w') => if is_NotFound e then handler w' else (inl e, w')
    | r => r
    end.

Definition lift {A} (r : exn + A) : M A := fun w => (r, w).
Definition gets {A} (f : world -> A) : M A := fun w => (inr (f w), w).
Definition modify (f : world -> world) : M unit := fun w => (inr tt, f w).

(** Python's [for x in xs: body x]. *)
Fixpoint for_each {A} (xs : list A) (body : A -> M unit) : M unit :=
  match xs with
  | [] => ret tt
  | x :: xs' => body x ;; for_each xs' body
  end.

(** *** Objects *)

(** Instantiation: a fresh object of the class with an empty [__dict__]. *)
Definition new_object (c : pyclass) : M nat :=
  fun w =>
    let l := next_loc w in
    (inr l, set_next_loc (S l) (set_heap (<[l := mkObj c ∅]> (heap w)) w)).

(** The [__dict__] of the instance at [l]. *)
Definition dict_of (l : nat) (w : world) : gmap string pyval :=
  match heap w !! l with
  | Some o => attrs o
  | None => ∅
  end.

(** [self.name] for a data attribute. *)
Definition getattr (l : nat) (name : string) : M pyval :=
  fun w =>
    match dict_of l w !! name with
    | Some v => (inr v, w)
    | None => (inl (AttributeError name), w)
    end.

(** [self.name = v] *)
Definition setattr (l : nat) (name : string) (v : pyval) : M unit :=
  modify (fun w =>
    set_heap (alter (fun o => mkObj (cls o) (<[name := v]> (attrs o))) l (heap w)) w).

(** [self.name(...)]: an entry of the instance [__dict__] shadows the method
    of the class; the entries here are never callable. *)
Definition call_method {A} (l : nat) (name : string) (body : M A) : M A :=
  fun w =>
    match dict_of l w !! name with
    | Some _ => (inl TypeError, w)
    | None => body w
    end.

(** [print(line)] *)
Definition print (line : string) : M unit :=
  modify (fun w => set_stdout (stdout w ++ [line]) w).

(** One request to the remote service, answered by [remote]. *)
Definition request (c : remote_call) : M unit :=
  fun w =>
    let w' := set_remote_log (remote_log w ++ [c]) w in
    match remote w (remote_log w) c with
    | None => (inr tt, w')
    | Some e => (inl e, w')
    end.

(** A call of a constructor of the client library, answered by [library]:
    it builds the object or raises, and changes nothing. *)
Definition construct (c : library_call) : M unit :=
  fun w =>
    match library w c with
    | None => (inr tt, w)
    | Some e => (inl e, w)
    end.

(** [setattr(self, name, v)] with a computed name, as [attr_columns] uses it:
    the name must be a [str]; [__class__], [__dict__] and [__weakref__] are
    descriptors of every instance that reject a string. *)
Definition py_setattr (l : nat) (name v : pyval) : M unit :=
  match name with
  | PStr s =>
      if String.eqb s "__class__" || String.eqb s "__dict__" then raise TypeError
      else if String.eqb s "__weakref__" then raise (AttributeError s)
      else setattr l s v
  | _ => raise TypeError
  end.

(** ** src/config/config.py *)

Fixpoint ends_with_slash (s : string) : bool :=
  match s with
  | EmptyString => false
  | String c EmptyString => Ascii.eqb c "/"%char
  | String _ s' => ends_with_slash s'
  end.

(** [os.path.join(a, b)] (POSIX). *)
Definition os_path_join (a b : string) : string :=
  if String.prefix "/" b then b
  else if String.eqb a "" || ends_with_slash a then a ++ b
  else a ++ "/" ++ b.

Arguments os_path_join : simpl never.

(** [with open(path) as file: json.load(file)] *)
Definition open_json_load (path : string) : M pyval :=
  fun w => (fs w path, set_file_reads (file_reads w ++ [path]) w).

Module Config.

Definition default_filename : string := "config.json".

Definition __init__ (self : nat) (config_json_filename : string) : M unit :=
  do dir <- gets config_dir;
  setattr self "_Config__config_dir" (PStr dir) ;;
  setattr self "_Config__config_json_filename" (PStr config_json_filename) ;;
  do inst <- gets Config_instance;
  match inst with
  | None =>
      modify (set_Config_instance (Some self)) ;;
      let config_path := os_path_join dir config_json_filename in
      do data <- open_json_load config_path;
      setattr self "data" data ;;
      setattr self "_Config__debug" (PBool false)
  | Some _ => raise (PlainException "Config solo se puede instanciar una vez")
  end.

(** The expression [Config(config_json_filename)]. *)
Definition new (config_json_filename : string) : M nat :=
  do self <- new_object ConfigClass;
  __init__ self config_json_filename ;;
  ret self.

(** The static method [Config.instance()]; it returns whatever the slot
    holds. *)
Definition instance : M (option nat) :=
  do inst <- gets Config_instance;
  match inst with
  | None => new default_filename ;; ret tt
  | Some _ => ret tt
  end ;;
  gets Config_instance.

(** The property [debug]: its getter ... *)
Definition debug (self : nat) : M pyval :=
  getattr self "_Config__debug".

(** ... and its setter, [self.debug = value]. *)
Definition set_debug (self : nat) (value : pyval) : M unit :=
  setattr self "_Config__debug" value.

End Config.

(** The loop [for key in items: data = data[key]]. *)
Fixpoint cfg_walk (data : pyval) (items : list pyval) : exn + pyval :=
  match items with
  | [] => inr data
  | key :: items' =>
      match subscript data key with
      | inr data' => cfg_walk data' items'
      | inl e => inl e
      end
  end.

(** [cfg_item], applied to the keys of a path.  Each call is recorded in
    [cfg_calls]. *)
Definition cfg_item (items : list pyval) : M pyval :=
  modify (fun w => set_cfg_calls (cfg_calls w ++ [items]) w) ;;
  do inst <- Config.instance;
  do data <- match inst with
             | Some l => getattr l "data"
             | None => raise (AttributeError "data")
             end;
  lift (cfg_walk data items).

(** ** The code the two table classes share word for word *)

(** The body of [attr_columns], after the schema has been fetched. *)
Definition attr_columns_loop (self : nat) (schema : pyval) : M unit :=
  do columns <- lift (py_iter schema);
  for_each columns (fun column =>
    do column_name <- lift (subscript column (PStr "name"));
    py_setattr self column_name column_name).

(** The loop of [get_date_columns] over the columns of a schema, with the
    names collected so far. *)
Fixpoint date_columns_loop (columns : list pyval) (date_columns : list pyval)
  : exn + list pyval :=
  match columns with
  | [] => inr date_columns
  | column :: columns' =>
      match subscript column (PStr "type") with
      | inl e => inl e
      | inr t =>
          if py_eq_str t "DATE" then
            match subscript column (PStr "name") with
            | inl e => inl e
            | inr name => date_columns_loop columns' (date_columns ++ [name])
            end
          else date_columns_loop columns' date_columns
      end
  end.

(** The body of [get_date_columns], after the schema has been fetched. *)
Definition date_columns_of (schema : pyval) : exn + list pyval :=
  match py_iter schema with
  | inl e => inl e
  | inr columns => date_columns_loop columns []
  end.

(** [df[column]] *)
Fixpoint frame_get (df : DataFrame) (column : string) : exn + series :=
  match df with
  | [] => inl (KeyError (PStr column))
  | (label, s) :: df' =>
      if String.eqb label column then inr s else frame_get df' column
  end.

(** [df[column] = s]: an existing column is replaced where it stands, a new
    one is added at the end. *)
Fixpoint frame_set (df : DataFrame) (column : string) (s : series) : DataFrame :=
  match df with
  | [] => [(column, s)]
  | (label, s') :: df' =>
      if String.eqb label column then (label, s) :: df'
      else (label, s') :: frame_set df' column s
  end.

Section Pandas.

(** [pd.to_datetime] on a column: pandas' own conversion, which either
    raises or yields the converted column. *)
Variable to_datetime : series -> exn + series.

(** [transform_date_time(df, date_columns)], the same in both classes.  The
    frame is changed in place: the result is the error, if one was raised,
    and the frame as the call leaves it (which is also the value
    returned). *)
Fixpoint transform_date_time (df : DataFrame) (date_columns : list string)
  : option exn * DataFrame :=
  match date_columns with
  | [] => (None, df)
  | column :: date_columns' =>
      match frame_get df column with
      | inl e => (Some e, df)
      | inr s =>
          match to_datetime s with
          | inl e => (Some e, df)
          | inr s' => transform_date_time (frame_set df column s') date_columns'
          end
      end
  end.

End Pandas.

(** ** src/table.py *)

Module PlainTable.

Definition get_table_id (self : nat) : M pyval :=
  do table_name <- getattr self "table_name";
  cfg_item [PStr "data"; PStr "tables"; table_name; PStr "table_id"].

Definition get_dataset_id (self : nat) : M pyval :=
  cfg_item [PStr "data"; PStr "dataset_id"].

Definition get_table_schema (self : nat) : M pyval :=
  do table_name <- getattr self "table_name";
  cfg_item [PStr "data"; PStr "tables"; table_name; PStr "schema"].

Definition get_data (self : nat) : M pyval :=
  do table_name <- getattr self "table_name";
  cfg_item [PStr "data"; PStr "tables"; table_name; PStr "data"].

Definition get_location (self : nat) : M pyval :=
  cfg_item [PStr "data"; PStr "location"].

Definition attr_columns (self : nat) : M unit :=
  do schema <- call_method self "get_table_schema" (get_table_schema self);
  attr_columns_loop self schema.

Definition get_date_columns (self : nat) : M (list pyval) :=
  do schema <- call_method self "get_table_schema" (get_table_schema self);
  lift (date_columns_of schema).

Definition __init__ (self : nat) (table_name : string) : M unit :=
  setattr self "table_name" (PStr table_name) ;;
  call_method self "attr_columns" (attr_columns self).

(** The expression [Table(table_name)]. *)
Definition new (table_name : string) : M nat :=
  do self <- new_object PlainTableClass;
  __init__ self table_name ;;
  ret self.

End PlainTable.

(** ** src/bigquery/table.py *)

Module Table.

Definition get_table_id (self : nat) : M pyval :=
  do table_id <- getattr self "table_id";
  (if is_None table_id then
     do table_name <- getattr self "table_name";
     do v <- cfg_item [PStr "data"; PStr "tables"; table_name; PStr "table_id"];
     setattr self "table_id" v
   else ret tt) ;;
  getattr self "table_id".

Definition get_dataset_id (self : nat) : M pyval :=
  do dataset_id <- getattr self "dataset_id";
  (if is_None dataset_id then
     do v <- cfg_item [PStr "data"; PStr "dataset_id"];
     setattr self "dataset_id" v
   else ret tt) ;;
  getattr self "dataset_id".

Definition get_table_schema (self : nat) : M pyval :=
  do schema <- getattr self "schema";
  (if is_None schema then
     do table_name <- getattr self "table_name";
     do v <- cfg_item [PStr "data"; PStr "tables"; table_name; PStr "schema"];
     setattr self "schema" v
   else ret tt) ;;
  getattr self "schema".

Definition get_location (self : nat) : M pyval :=
  do location <- getattr self "location";
  (if is_None location then
     do v <- cfg_item [PStr "data"; PStr "location"];
     setattr self "location" v
   else ret tt) ;;
  getattr self "location".

Definition attr_columns (self : nat) : M unit :=
  do schema <- call_method self "get_table_schema" (get_table_schema self);
  attr_columns_loop self schema.

Definition get_date_columns (self : nat) : M (list pyval) :=
  do schema <- call_method self "get_table_schema" (get_table_schema self);
  lift (date_columns_of schema).

(** [table_id], [schema] and [location] default to [None]. *)
Definition __init__ (self : nat) (table_name : string)
           (table_id schema location : pyval) : M unit :=
  setattr self "table_name" (PStr table_name) ;;
  setattr self "table_id" table_id ;;
  setattr self "schema" schema ;;
  setattr self "location" location ;;
  call_method self "attr_columns" (attr_columns self).

(** The expression [Table(table_name, table_id, schema, location)]. *)
Definition new (table_name : string) (table_id schema location : pyval) : M nat :=
  do self <- new_object TableClass;
  __init__ self table_name table_id schema location ;;
  ret self.

End Table.

(** ** src/bigquery.py *)

(** [bigquery.SchemaField(name=..., field_type=..., mode=...,
    description=...)]: the object, known by the four arguments of the call
    that built it. *)
Record SchemaField : Type := mkSchemaField {
  sf_name : pyval;
  sf_field_type : pyval;
  sf_mode : pyval;
  sf_description : pyval
}.

(** [obj.get(key, default)]: only dictionaries have the method here. *)
Definition py_get (obj : pyval) (key : string) (default : pyval) : exn + pyval :=
  match obj with
  | PDict d =>
      match dict_get key d with
      | Some v => inr v
      | None => inr default
      end
  | _ => inl (AttributeError "get")
  end.

(** The loop of [create_bq_schema_from_json] over the fields, with the
    schema built so far.  The arguments of [SchemaField] are evaluated from
    left to right, then the constructor is called; [accepts] is the library's
    answer to such a call. *)
Fixpoint schema_fields_loop (accepts : library_call -> option exn)
         (fields : list pyval) (schema : list SchemaField)
  : exn + list SchemaField :=
  match fields with
  | [] => inr schema
  | field :: fields' =>
      match subscript field (PStr "name") with
      | inl e => inl e
      | inr name =>
          match subscript field (PStr "type") with
          | inl e => inl e
          | inr field_type =>
              match subscript field (PStr "mode") with
              | inl e => inl e
              | inr mode =>
                  match py_get field "description" PNone with
                  | inl e => inl e
                  | inr description =>
                      match accepts (NewSchemaField name field_type mode description) with
                      | Some e => inl e
                      | None =>
                          schema_fields_loop accepts fields'
                            (schema ++ [mkSchemaField name field_type mode description])
                      end
                  end
              end
          end
      end
  end.

Module BigQuery.

(** A method of the descriptor handed to [load_data_to_bigquery], found by
    its class. *)
Definition table_method (table : nat) (name : string)
           (plain cached : nat -> M pyval) : M pyval :=
  do o <- gets (fun w => heap w !! table);
  call_method table name
    match cls <$> o with
    | Some PlainTableClass => plain table
    | Some TableClass => cached table
    | _ => raise (AttributeError name)
    end.

Definition create_table (table_id schema : pyval) : M unit :=
  construct (NewTable table_id schema) ;;
  let table := mkBQTable table_id schema in
  ret tt.

Definition check_table_exists (table_id : pyval) : M bool :=
  try_except_NotFound
    (request (GetTable table_id) ;; ret true)
    (ret false).

Definition job_config (schema table_id : pyval) : M LoadJobConfig :=
  do exists_ <- check_table_exists table_id;
  if exists_ : bool then
    print "La tabla ya existe" ;;
    construct (NewLoadJobConfig schema WRITE_APPEND) ;;
    ret (mkLoadJobConfig schema WRITE_APPEND)
  else
    print "La tabla no existe" ;;
    construct (NewLoadJobConfig schema WRITE_EMPTY) ;;
    ret (mkLoadJobConfig schema WRITE_EMPTY).

Definition load_data_to_bigquery (data : DataFrame) (table : nat) : M unit :=
  do dataset_id <- table_method table "get_dataset_id"
                     PlainTable.get_dataset_id Table.get_dataset_id;
  do table_id <- table_method table "get_table_id"
                   PlainTable.get_table_id Table.get_table_id;
  try_except_NotFound
    (request (GetDataset dataset_id))
    (construct (NewDataset dataset_id) ;;
     let dataset := mkDataset dataset_id None in
     let dataset := mkDataset (ds_id dataset) (Some "US") in
     request (CreateDataset dataset)) ;;
  do schema <- table_method table "get_table_schema"
                 PlainTable.get_table_schema Table.get_table_schema;
  do job_config <- job_config schema table_id;
  request (LoadTableFromDataframe data table_id job_config) ;;
  request JobResult.

Definition create_bq_schema_from_json (schema_json : pyval) : M (list SchemaField) :=
  do fields <- lift (py_iter schema_json);
  do accepts <- gets library;
  lift (schema_fields_loop accepts fields []).

End BigQuery.

(** ** A concrete configuration and concrete worlds *)

(** The configuration of the specification's scenario: one table, [events],
    with a [DATE] column and a [FLOAT] column. *)
Definition events_schema : pyval :=
  PList [ PDict [("name", PStr "ts"); ("type", PStr "DATE"); ("mode", PStr "NULLABLE")];
          PDict [("name", PStr "val"); ("type", PStr "FLOAT"); ("mode", PStr "NULLABLE")] ].

Definition events_config : pyval :=
  PDict [("data", PDict [
    ("dataset_id", PStr "ds1");
    ("location", PStr "US");
    ("tables", PDict [
      ("events", PDict [
        ("table_id", PStr "proj.ds1.events");
        ("schema", events_schema)])])])].

(** A file system holding that configuration as [/app/config/config.json]. *)
Definition events_fs (path : string) : exn + pyval :=
  if String.eqb path "/app/config/config.json" then inr events_config
  else inl OSError.

(** A file system with no readable file at all. *)
Definition empty_fs (path : string) : exn + pyval := inl OSError.

(** A remote service on which no dataset and no table exists yet, and which
    accepts every other request. *)
Definition fresh_remote (history : list remote_call) (c : remote_call) : option exn :=
  match c with
  | GetTable _ | GetDataset _ => Some NotFound
  | _ => None
  end.

(** A remote service that accepts every request. *)
Definition ready_remote (history : list remote_call) (c : remote_call) : option exn :=
  None.

(** A remote service that denies every request. *)
Definition denying_remote (history : list remote_call) (c : remote_call) : option exn :=
  Some (RemoteError 403).

(** The number of dots in a string. *)
Fixpoint dots (s : string) : nat :=
  match s with
  | EmptyString => 0
  | String c s' => (if Ascii.eqb c "."%char then 1 else 0) + dots s'
  end.

(** A schema the library takes: nothing, or a list of mappings. *)
Definition schema_of_mappings (schema : pyval) : bool :=
  match schema with
  | PNone => true
  | PList items =>
      forallb (fun item => match item with PDict _ => true | _ => false end) items
  | _ => false
  end.

(** The client library on the calls of the scenarios below.  A table id is
    [project.dataset.table] and a dataset id [project.dataset], or the
    constructor raises [ValueError]; a schema is a list of mappings, or
    [ValueError]; the mode of a schema field is upper-cased, which a mode
    that is not a string does not support. *)
Definition client_library (c : library_call) : option exn :=
  match c with
  | NewTable (PStr s) schema =>
      if Nat.eqb (dots s) 2 && schema_of_mappings schema then None else Some ValueError
  | NewDataset (PStr s) =>
      if Nat.eqb (dots s) 1 then None else Some ValueError
  | NewLoadJobConfig schema _ =>
      if schema_of_mappings schema then None else Some ValueError
  | NewSchemaField _ _ (PStr _) _ | NewSchemaField _ _ PNone _ => None
  | NewSchemaField _ _ _ _ => Some (AttributeError "upper")
  | _ => Some TypeError
  end.

(** The state of a process that has just started. *)
Definition start (fs : string -> exn + pyval)
           (remote : list remote_call -> remote_call -> option exn) : world :=
  mkWorld "/app/config" fs ∅ 0 None remote client_library [] [] [] [].

(** The same configuration with the location [EU] and the dataset id
    qualified by its project. *)
Definition eu_config : pyval :=
  PDict [("data", PDict [
    ("dataset_id", PStr "proj.ds1");
    ("location", PStr "EU");
    ("tables", PDict [
      ("events", PDict [
        ("table_id", PStr "proj.ds1.events");
        ("schema", events_schema)])])])].

Definition eu_fs (path : string) : exn + pyval :=
  if String.eqb path "/app/config/config.json" then inr eu_config
  else inl OSError.

(** *** A concrete [pd.to_datetime] *)

(** Conversion cell by cell, for a given parser of date strings: text is
    parsed, an integer counts nanoseconds, a timestamp is kept, a missing
    value becomes the missing timestamp. *)
Definition cell_to_datetime (parse : string -> option Z) (c : cell) : exn + cell :=
  match c with
  | CStr s =>
      match parse s with
      | Some ns => inr (CTimestamp ns)
      | None => inl ValueError
      end
  | CInt n => inr (CTimestamp n)
  | CTimestamp ns => inr (CTimestamp ns)
  | CNaT | CMissing => inr CNaT
  end.

Fixpoint cells_to_datetime (parse : string -> option Z) (s : series) : exn + series :=
  match s with
  | [] => inr []
  | c :: s' =>
      match cell_to_datetime parse c with
      | inl e => inl e
      | inr c' =>
          match cells_to_datetime parse s' with
          | inl e => inl e
          | inr s'' => inr (c' :: s'')
          end
      end
  end.

(** A parser that knows two dates. *)
Definition two_dates (s : string) : option Z :=
  if String.eqb s "1970-01-01" then Some 0%Z
  else if String.eqb s "1970-01-02" then Some 86400000000000%Z
  else None.

(** A frame with a column of date strings and a column of numbers. *)
Definition sample_frame : DataFrame :=
  [("ts", [CStr "1970-01-02"; CStr "1970-01-01"; CMissing]);
   ("val", [CInt 7; CInt 8; CInt 9])].

(** The world after [Table("events")] of src/bigquery/table.py has been
    constructed in a fresh process: the descriptor is object 0 and the
    configuration singleton, loaded on the way, is object 1. *)
Definition events_table_world : world :=
  Eval vm_compute in
    snd (Table.new "events" PNone PNone PNone (start events_fs ready_remote)).

(** The world after [Table("events")] of src/table.py has been constructed in
    a fresh process whose configuration says [EU] and whose remote service
    has no dataset yet. *)
Definition eu_plain_table_world : world :=
  Eval vm_compute in snd (PlainTable.new "events" (start eu_fs fresh_remote)).

(** The world after [Config()] has been constructed in a fresh process with
    the [events] configuration: the singleton is object 0. *)
Definition loaded_config_world : world :=
  Eval vm_compute in snd (Config.new "config.json" (start events_fs ready_remote)).

(** The world after [Config()] has failed in a fresh process without a
    readable file. *)
Definition failed_config_world : world :=
  Eval vm_compute in snd (Config.new "config.json" (start empty_fs ready_remote)).

(** The [events] configuration with [null] for the location. *)
Definition null_location_config : pyval :=
  PDict [("data", PDict [
    ("dataset_id", PStr "ds1");
    ("location", PNone);
    ("tables", PDict [
      ("events", PDict [
        ("table_id", PStr "proj.ds1.events");
        ("schema", events_schema)])])])].

Definition null_location_fs (path : string) : exn + pyval :=
  if String.eqb path "/app/config/config.json" then inr null_location_config
  else inl OSError.

(** The world after [Table("events")] of src/bigquery/table.py has been
    constructed over that configuration. *)
Definition null_location_world : world :=
  Eval vm_compute in
    snd (Table.new "events" PNone PNone PNone (start null_location_fs ready_remote)).

(** The world in which the constructor of [Table("events")] of
    src/bigquery/table.py calls [attr_columns]: nothing looked up yet. *)
Definition events_unset_world : world :=
  Eval vm_compute in
    snd ((do self <- new_object TableClass;
          setattr self "table_name" (PStr "events") ;;
          setattr self "table_id" PNone ;;
          setattr self "schema" PNone ;;
          setattr self "location" PNone) (start events_fs ready_remote)).

(** The [ts] column of the [events] schema, and a column without a name. *)
Definition ts_column : pyval :=
  PDict [("name", PStr "ts"); ("type", PStr "DATE"); ("mode", PStr "NULLABLE")].

Definition nameless_column : pyval :=
  PDict [("type", PStr "FLOAT"); ("mode", PStr "NULLABLE")].

(** The unresolved [events] descriptor after [ts] has been made an
    attribute. *)
Definition ts_injected_world : world :=
  Eval vm_compute in snd (attr_columns_loop 0 (PList [ts_column]) events_unset_world).

(** A column that bears the name of a method. *)
Definition method_named_column : pyval :=
  PDict [("name", PStr "get_table_schema"); ("type", PStr "STRING");
         ("mode", PStr "NULLABLE")].

(** The world after the sample frame has been loaded through the [events]
    descriptor of src/table.py into a service that has neither the dataset nor
    the table. *)
Definition eu_loaded_world : world :=
  Eval vm_compute in
    snd (BigQuery.load_data_to_bigquery sample_frame 0 eu_plain_table_world).


(** A schema given as the list of its column names. *)
Definition names_only_schema : pyval := PList [PStr "ts"; PStr "val"].

(** ** Vocabulary of the properties *)

(** What [get_date_columns] reads of a column: its name and its type. *)
Definition column_view (column : pyval) (field : pyval * pyval) : Prop :=
  subscript column (PStr "name") = inr (fst field) /\
  subscript column (PStr "type") = inr (snd field).

Definition is_DATE (field : pyval * pyval) : bool := py_eq_str (snd field) "DATE".

(** The usage error of a second construction. *)
Definition already_initialized : exn :=
  PlainException "Config solo se puede instanciar una vez".

(** [appends ok m]: running [m] leaves the service as it is and adds to the
    log of requests only requests accepted by [ok]. *)
Definition appends (ok : remote_call -> bool) {A} (m : M A) : Prop :=
  forall w r w',
    m w = (r, w') ->
    remote w' = remote w /\
    exists sent,
      remote_log w' = (remote_log w ++ sent)%list /\
      Forall (fun c => ok c = true) sent.

(** No request at all. *)
Definition nothing : remote_call -> bool := fun _ => false.


(** [preserves P m]: a property of the world that holds before [m] holds
    after it, whether [m] returns or raises. *)
Definition preserves {A} (P : world -> Prop) (m : M A) : Prop :=
  forall w r w', m w = (r, w') -> P w -> P w'.

(** The paths the accessors look up. *)
Definition table_id_path (table_name : pyval) : list pyval :=
  [PStr "data"; PStr "tables"; table_name; PStr "table_id"].

Definition schema_path (table_name : pyval) : list pyval :=
  [PStr "data"; PStr "tables"; table_name; PStr "schema"].

Definition location_path : list pyval := [PStr "data"; PStr "location"].

(** The world in which [__init__] calls [attr_columns]: the new object with
    its four attributes. *)
Definition Table_attributes_set (table_name : string) (table_id schema location : pyval)
           (w : world) : world :=
  snd ((do self <- new_object TableClass;
        setattr self "table_name" (PStr table_name) ;;
        setattr self "table_id" table_id ;;
        setattr self "schema" schema ;;
        setattr self "location" location) w).



(** Column [c] of [df] holds date/time values already: [to_datetime] leaves
    it as it is. *)
Definition settled (to_datetime : series -> exn + series)
           (df : DataFrame) (c : string) : Prop :=
  exists s, frame_get df c = inr s /\ to_datetime s = inr s.

(** The configuration is loaded: the slot holds [inst], whose [data] is
    [data]. *)
Definition loaded (inst : nat) (data : pyval) (w : world) : Prop :=
  Config_instance w = Some inst /\ dict_of inst w !! "data" = Some data.

(** A lookup answered from [data]: the outcome of the walk, and nothing but
    the record of the call added to the world. *)
Definition looked_up (data : pyval) (items : list pyval) (w : world)
  : (exn + pyval) * world :=
  (cfg_walk data items, set_cfg_calls (cfg_calls w ++ [items]) w).

(** The remaining paths of the accessors. *)
Definition dataset_id_path : list pyval := [PStr "data"; PStr "dataset_id"].

Definition data_path (table_name : pyval) : list pyval :=
  [PStr "data"; PStr "tables"; table_name; PStr "data"].

(** The configuration file [cfg_item] loads on first use. *)
Definition default_config_path (w : world) : string :=
  os_path_join (config_dir w) Config.default_filename.

(** The world in which [__init__] of src/table.py calls [attr_columns]: the
    new object with its table name. *)
Definition PlainTable_attributes_set (table_name : string) (w : world) : world :=
  snd ((do self <- new_object PlainTableClass;
        setattr self "table_name" (PStr table_name)) w).

(** What a constructor that makes no lookup leaves alone. *)
Definition offline (w w' : world) : Prop :=
  cfg_calls w' = cfg_calls w /\
  file_reads w' = file_reads w /\
  Config_instance w' = Config_instance w /\
  remote_log w' = remote_log w.

(** Column [column] is named [a]. *)
Definition named (a : string) (column : pyval) : Prop :=
  subscript column (PStr "name") = inr (PStr a).

(** The [dataset_id] attribute of [t] is absent, or holds the name that a
    column called [dataset_id] left there; [t] is an allocated address. *)
Definition dataset_id_unresolved (t : nat) (w : world) : Prop :=
  t < next_loc w /\
  (dict_of t w !! "dataset_id" = None \/
   dict_of t w !! "dataset_id" = Some (PStr "dataset_id")).

(** [silent m]: running [m] prints nothing. *)
Definition silent {A} (m : M A) : Prop :=
  forall w r w', m w = (r, w') -> stdout w' = stdout w.

(** The line [job_config] prints when it chooses a disposition. *)
Definition disposition_line (d : WriteDisposition) : string :=
  match d with
  | WRITE_APPEND => "La tabla ya existe"
  | _ => "La tabla no existe"
  end.

(** The only answers the wrapper handles itself: [NotFound] to one of its
    two existence checks. *)
Definition handled (c : remote_call) (e : exn) : Prop :=
  e = NotFound /\ ((exists d, c = GetDataset d) \/ (exists t, c = GetTable t)).

(** The requests [sent] from world [w] by a run with outcome [r]: every one
    of them that the service answered with an error is either the last one
    sent, its error being the outcome of the run, or handled. *)
Definition errors_surface {A} (w : world) (sent : list remote_call) (r : exn + A)
  : Prop :=
  forall before c after e,
    sent = (before ++ c :: after)%list ->
    remote w (remote_log w ++ before) c = Some e ->
    (after = [] /\ r = inl e) \/ handled c e.

(** [faithful m]: [m] leaves the service as it is and lets its errors
    surface. *)
Definition faithful {A} (m : M A) : Prop :=
  forall w r w',
    m w = (r, w') ->
    remote w' = remote w /\
    exists sent,
      remote_log w' = (remote_log w ++ sent)%list /\ errors_surface w sent r.

(** The constructor call that built a [SchemaField]. *)
Definition SchemaField_call (sf : SchemaField) : library_call :=
  NewSchemaField (sf_name sf) (sf_field_type sf) (sf_mode sf) (sf_description sf).

(** What [create_bq_schema_from_json] reads of a field and passes to
    [SchemaField]: name, type and mode, and the description or [None]. *)
Definition field_view (field : pyval) (sf : SchemaField) : Prop :=
  subscript field (PStr "name") = inr (sf_name sf) /\
  subscript field (PStr "type") = inr (sf_field_type sf) /\
  subscript field (PStr "mode") = inr (sf_mode sf) /\
  py_get field "description" PNone = inr (sf_description sf).

Definition is_DATE_field (sf : SchemaField) : bool :=
  py_eq_str (sf_field_type sf) "DATE".

(** [static m]: running [m] leaves the client library as it is. *)
Definition static {A} (m : M A) : Prop :=
  forall w r w', m w = (r, w') -> library w' = library w.

(** The dataset stage of [load_data_to_bigquery]: the check, and in its
    [NotFound] handler the construction of the dataset, the assignment of its
    location and its creation. *)
Definition dataset_stage (dataset_id : pyval) : M unit :=
  try_except_NotFound
    (request (GetDataset dataset_id))
    (construct (NewDataset dataset_id) ;;
     request (CreateDataset (mkDataset dataset_id (Some "US")))).

(** A step that sends nothing, prints nothing and leaves the service and the
    library as they are. *)
Definition quiet_step (w w' : world) : Prop :=
  remote w' = remote w /\ remote_log w' = remote_log w /\
  stdout w' = stdout w /\ library w' = library w.

(** *** The claims as they are stated *)

(** [create_table] returns [None] and leaves everything as it is. *)
Definition create_table_returns_None (table_id schema : pyval) (w : world) : Prop :=
  BigQuery.create_table table_id schema w = (inr tt, w).

(** Whatever the existence check returns, [job_config] returns the
    configuration that goes with it. *)
Definition job_config_total (schema table_id : pyval) (w : world) : Prop :=
  forall b w1,
    BigQuery.check_table_exists table_id w = (inr b, w1) ->
    fst (BigQuery.job_config schema table_id w)
    = inr (mkLoadJobConfig schema (if b then WRITE_APPEND else WRITE_EMPTY)).


(** [NotFound] is caught at the existence check and nowhere else: in a run of
    [m], a request answered [NotFound] is the table lookup, or [NotFound] is
    what the run raises. *)
Definition NotFound_caught_only_by_existence_check {A} (m : M A) (w : world) : Prop :=
  forall before c after,
    remote_log (snd (m w)) = (remote_log w ++ before ++ c :: after)%list ->
    remote w (remote_log w ++ before) c = Some NotFound ->
    (exists t, c = GetTable t) \/ fst (m w) = inl NotFound.

(** * Properties *)

(** ** Reasoning about the monad *)

Lemma bind_inr {A B} (m : M A) (k : A -> M B) w a w' :
  m w = (inr a, w') -> bind m k w = k a w'.
Proof. intros H. unfold bind. now rewrite H. Qed.

Lemma bind_inl {A B} (m : M A) (k : A -> M B) w e w' :
  m w = (inl e, w') -> bind m k w = (inl e, w').
Proof. intros H. unfold bind. now rewrite H. Qed.

(** A sequence returns only if its first part returned, and raises either
    in its first part or in its continuation. *)
Lemma bind_inv {A B} (m : M A) (k : A -> M B) w r w' :
  bind m k w = (r, w') ->
  (exists e, m w = (inl e, w') /\ r = inl e) \/
  (exists a w1, m w = (inr a, w1) /\ k a w1 = (r, w')).
Proof.
  unfold bind. destruct (m w) as [[e | a] w1]; intros H.
  - left. exists e. now inversion H.
  - right. now exists a, w1.
Qed.

(** ** C7: [get_date_columns] *)

Lemma date_columns_loop_spec columns fields :
  Forall2 column_view columns fields ->
  forall acc,
    date_columns_loop columns acc
    = inr (acc ++ map fst (List.filter is_DATE fields))%list.
Proof.
  induction 1 as [| column field columns fields [Hn Ht] _ IH]; intros acc; simpl.
  - now rewrite app_nil_r.
  - rewrite Ht. unfold is_DATE at 1.
    destruct (py_eq_str (snd field) "DATE"); simpl.
    + rewrite Hn, IH, <- app_assoc. reflexivity.
    + apply IH.
Qed.

Lemma In_map_filter {A B} (f : A -> B) (p : A -> bool) (l : list A) (y : B) :
  In y (map f (List.filter p l)) -> In y (map f l).
Proof.
  induction l as [| x l IH]; simpl; [tauto |].
  destruct (p x); simpl; tauto.
Qed.

Lemma NoDup_map_filter {A B} (f : A -> B) (p : A -> bool) (l : list A) :
  List.NoDup (map f l) -> List.NoDup (map f (List.filter p l)).
Proof.
  induction l as [| x l IH]; simpl; intros H; [constructor |].
  inversion H as [| ? ? Hx Hl]; subst.
  destruct (p x); simpl; [constructor |]; auto.
  intros Hin. apply Hx. eapply In_map_filter, Hin.
Qed.

(** C7.  Take a schema of N fields, [fields] giving the name and the type of
    each in order.  Then [get_date_columns], in both table classes, returns
    exactly the names of the fields whose type is [DATE], in schema order;
    their number is the number K of such fields, at most N; and they are free
    of duplicates when the field names are. *)
Theorem get_date_columns_exact (columns : list pyval) (fields : list (pyval * pyval)) :
  Forall2 column_view columns fields ->
  let dates := map fst (List.filter is_DATE fields) in
  (forall t w w',
      call_method t "get_table_schema" (Table.get_table_schema t) w
      = (inr (PList columns), w') ->
      Table.get_date_columns t w = (inr dates, w')) /\
  (forall t w w',
      call_method t "get_table_schema" (PlainTable.get_table_schema t) w
      = (inr (PList columns), w') ->
      PlainTable.get_date_columns t w = (inr dates, w')) /\
  length dates = length (List.filter is_DATE fields) /\
  length dates <= length columns /\
  (List.NoDup (map fst fields) -> List.NoDup dates).
Proof.
  intros Hv dates.
  assert (Hd : date_columns_of (PList columns) = inr dates).
  { unfold date_columns_of. simpl. now rewrite (date_columns_loop_spec _ _ Hv). }
  repeat split.
  - intros t w w' H. unfold Table.get_date_columns.
    rewrite (bind_inr _ _ _ _ _ H). unfold lift. now rewrite Hd.
  - intros t w w' H. unfold PlainTable.get_date_columns.
    rewrite (bind_inr _ _ _ _ _ H). unfold lift. now rewrite Hd.
  - unfold dates. apply length_map.
  - unfold dates. rewrite length_map, (Forall2_length _ _ _ Hv).
    apply List.filter_length_le.
  - apply NoDup_map_filter.
Qed.

(** The scenario of the specification: table [events] has the date column
    [ts] and nothing else. *)
Lemma get_date_columns_exact_witness :
  Table.get_date_columns 0 events_table_world = (inr [PStr "ts"], events_table_world).
Proof.
  apply (proj1 (get_date_columns_exact
                  [ PDict [("name", PStr "ts"); ("type", PStr "DATE");
                           ("mode", PStr "NULLABLE")];
                    PDict [("name", PStr "val"); ("type", PStr "FLOAT");
                           ("mode", PStr "NULLABLE")] ]
                  [ (PStr "ts", PStr "DATE"); (PStr "val", PStr "FLOAT") ]
                  ltac:(repeat constructor))).
  vm_compute. reflexivity.
Defined.

(** ** C8: [transform_date_time] *)

Lemma frame_get_set_same df c s : frame_get (frame_set df c s) c = inr s.
Proof.
  induction df as [| [label s'] df IH]; simpl.
  - now rewrite String.eqb_refl.
  - destruct (String.eqb label c) eqn:E; simpl; now rewrite E.
Qed.

Lemma frame_get_set_other df c c' s :
  c <> c' -> frame_get (frame_set df c s) c' = frame_get df c'.
Proof.
  intros Hne. induction df as [| [label s'] df IH]; simpl.
  - destruct (String.eqb c c') eqn:E; [| reflexivity].
    apply String.eqb_eq in E. contradiction.
  - destruct (String.eqb label c) eqn:E; simpl.
    + apply String.eqb_eq in E. subst label.
      apply String.eqb_neq in Hne. now rewrite Hne.
    + now rewrite IH.
Qed.

Lemma frame_set_same_value df c s : frame_get df c = inr s -> frame_set df c s = df.
Proof.
  induction df as [| [label s'] df IH]; simpl; [discriminate |].
  destruct (String.eqb label c); intros H.
  - now inversion H.
  - now rewrite IH.
Qed.

Lemma frame_set_labels df c s s' :
  frame_get df c = inr s -> map fst (frame_set df c s') = map fst df.
Proof.
  induction df as [| [label s0] df IH]; simpl; [discriminate |].
  destruct (String.eqb label c); intros H; simpl; [reflexivity |].
  now rewrite IH.
Qed.

Section TransformDateTime.

Variable to_datetime : series -> exn + series.

(** What the claim says of pandas: converting a converted column changes
    nothing. *)
Hypothesis to_datetime_settled :
  forall s s', to_datetime s = inr s' -> to_datetime s' = inr s'.

Lemma settled_frame_set df c c' s s' :
  to_datetime s = inr s' -> settled to_datetime df c' -> settled to_datetime (frame_set df c s') c'.
Proof.
  intros Hs (s0 & Hg & Hd).
  destruct (String.eqb_spec c c') as [-> | Hne].
  - exists s'. split; [apply frame_get_set_same | eauto].
  - exists s0. split; [now rewrite frame_get_set_other | assumption].
Qed.

Lemma transform_date_time_run cols :
  forall df df1,
    transform_date_time to_datetime df cols = (None, df1) ->
    (forall c, In c cols -> settled to_datetime df1 c) /\
    (forall c, settled to_datetime df c -> settled to_datetime df1 c) /\
    (forall c, ~ In c cols -> frame_get df1 c = frame_get df c) /\
    map fst df1 = map fst df.
Proof.
  induction cols as [| c cols IH]; simpl; intros df df1 H.
  - inversion H; subst. repeat split; auto. intros c [].
  - destruct (frame_get df c) as [e | s] eqn:Hg; [discriminate |].
    destruct (to_datetime s) as [e | s'] eqn:Hd; [discriminate |].
    destruct (IH _ _ H) as (Hin & Hkeep & Hother & Hlab).
    assert (Hc : settled to_datetime (frame_set df c s') c).
    { exists s'. split; [apply frame_get_set_same | eauto]. }
    repeat split.
    + intros c' [<- | Hc']; auto.
    + intros c' Hs. apply Hkeep. eapply settled_frame_set; eauto.
    + intros c' Hn. rewrite Hother by tauto.
      apply frame_get_set_other. intros ->. tauto.
    + rewrite Hlab. eapply frame_set_labels; eauto.
Qed.

Lemma transform_date_time_settled cols :
  forall df, (forall c, In c cols -> settled to_datetime df c) ->
             transform_date_time to_datetime df cols = (None, df).
Proof.
  induction cols as [| c cols IH]; simpl; intros df H; [reflexivity |].
  destruct (H c (or_introl eq_refl)) as (s & Hg & Hd).
  rewrite Hg, Hd, (frame_set_same_value _ _ _ Hg).
  apply IH. auto.
Qed.

End TransformDateTime.

(** C8.  Let [to_datetime] be pandas' conversion, of which the claim uses
    that it leaves an already converted column as it is.  If applying
    [transform_date_time] to a frame (with distinct column labels) succeeds,
    that is, every named column exists and holds date-parseable values, then
    applying it again with the same [date_columns] succeeds and returns the
    same frame; the columns not named in [date_columns] hold what they held
    before the first application, and the labels and their order are kept. *)
Theorem transform_date_time_idempotent
        (to_datetime : series -> exn + series)
        (df df1 : DataFrame) (date_columns : list string) :
  (forall s s', to_datetime s = inr s' -> to_datetime s' = inr s') ->
  List.NoDup (map fst df) ->
  transform_date_time to_datetime df date_columns = (None, df1) ->
  transform_date_time to_datetime df1 date_columns = (None, df1) /\
  (forall c, ~ In c date_columns -> frame_get df1 c = frame_get df c) /\
  map fst df1 = map fst df.
Proof.
  intros Hfix _ Hrun.
  destruct (transform_date_time_run to_datetime Hfix _ _ _ Hrun)
    as (Hin & _ & Hother & Hlab).
  split; [| split]; auto.
  now apply transform_date_time_settled.
Qed.

(** The concrete conversion leaves its own results alone. *)
Lemma cells_to_datetime_settled parse s :
  forall s', cells_to_datetime parse s = inr s' ->
             cells_to_datetime parse s' = inr s'.
Proof.
  induction s as [| c s IH]; simpl; intros s' H.
  - now inversion H.
  - destruct (cell_to_datetime parse c) as [e | c'] eqn:Hc; [discriminate |].
    destruct (cells_to_datetime parse s) as [e | s''] eqn:Hs; [discriminate |].
    inversion H; subst s'. simpl. rewrite (IH _ eq_refl).
    destruct c; simpl in Hc; try (inversion Hc; subst c'; reflexivity).
    destruct (parse s0); [| discriminate].
    inversion Hc; subst c'. reflexivity.
Qed.

(** A frame with date strings in [ts]: converting [ts] twice is converting it
    once, and [val] is untouched. *)
Lemma transform_date_time_idempotent_witness :
  let df1 := [("ts", [CTimestamp 86400000000000; CTimestamp 0; CNaT]);
              ("val", [CInt 7; CInt 8; CInt 9])] in
  transform_date_time (cells_to_datetime two_dates) df1 ["ts"] = (None, df1) /\
  (forall c, ~ In c ["ts"] -> frame_get df1 c = frame_get sample_frame c) /\
  map fst df1 = map fst sample_frame.
Proof.
  apply (transform_date_time_idempotent (cells_to_datetime two_dates) sample_frame).
  - apply cells_to_datetime_settled.
  - repeat constructor; simpl; intuition discriminate.
  - reflexivity.
Defined.

(** ** C5 and C10: the [Config] singleton *)

(** Runs the straight-line code of a method on a symbolic world. *)
Ltac run :=
  unfold cfg_item, Config.instance, Config.new, Config.__init__, new_object,
    getattr, setattr, call_method, open_json_load, print, request,
    gets, modify, lift, bind, ret, raise;
  cbn.

Lemma Config_new_again fname w inst :
  Config_instance w = Some inst ->
  exists w',
    Config.new fname w = (inl already_initialized, w') /\
    Config_instance w' = Some inst /\
    file_reads w' = file_reads w /\
    cfg_calls w' = cfg_calls w /\
    (inst <> next_loc w -> heap w' !! inst = heap w !! inst).
Proof.
  intros Hs. run. rewrite Hs. cbn.
  eexists; split; [reflexivity |]. cbn.
  repeat split; try assumption.
  intros Hne. rewrite !lookup_alter_ne, lookup_insert_ne by congruence.
  reflexivity.
Qed.

Lemma Config_new_fills_slot fname w r w' :
  Config_instance w = None ->
  Config.new fname w = (r, w') ->
  Config_instance w' = Some (next_loc w).
Proof.
  intros Hs. run. rewrite Hs. cbn.
  destruct (fs w (os_path_join (config_dir w) fname)); cbn;
    intros H; inversion H; reflexivity.
Qed.

(** C5.  While the slot [Config.__instance] is empty, constructing [Config]
    with a file name whose file loads installs the new instance in the slot,
    reads that one file and stores its content as the instance's [data]; and
    whatever the outcome of a construction that found the slot empty, the
    slot is filled afterwards.  Once the slot is filled, every construction,
    with any file name, raises the usage error, reads no file, leaves the slot
    pointing to the installed instance and leaves that instance as it was. *)
Theorem Config_singleton :
  (forall fname w data,
      Config_instance w = None ->
      fs w (os_path_join (config_dir w) fname) = inr data ->
      exists w',
        Config.new fname w = (inr (next_loc w), w') /\
        Config_instance w' = Some (next_loc w) /\
        dict_of (next_loc w) w' !! "data" = Some data /\
        file_reads w' = (file_reads w ++ [os_path_join (config_dir w) fname])%list) /\
  (forall fname w r w',
      Config_instance w = None ->
      Config.new fname w = (r, w') ->
      Config_instance w' = Some (next_loc w)) /\
  (forall fname w inst,
      Config_instance w = Some inst ->
      exists w',
        Config.new fname w = (inl already_initialized, w') /\
        Config_instance w' = Some inst /\
        file_reads w' = file_reads w /\
        (inst <> next_loc w -> heap w' !! inst = heap w !! inst)).
Proof.
  split; [| split].
  - intros fname w data Hs Hf. run. rewrite Hs. cbn. rewrite Hf. cbn.
    eexists; split; [reflexivity |]. cbn.
    repeat split.
    unfold dict_of. cbn.
    rewrite !lookup_alter_eq, lookup_insert_eq. cbn.
    rewrite lookup_insert_ne by discriminate.
    apply lookup_insert_eq.
  - apply Config_new_fills_slot.
  - intros fname w inst Hs.
    destruct (Config_new_again fname w inst Hs) as (w' & H1 & H2 & H3 & _ & H4).
    exists w'. auto.
Qed.

(** A first construction in a fresh process, then a second one with another
    file name. *)
Lemma Config_singleton_witness :
  (exists w',
      Config.new "config.json" (start events_fs ready_remote) = (inr 0, w') /\
      Config_instance w' = Some 0 /\
      dict_of 0 w' !! "data" = Some events_config /\
      file_reads w' = ["/app/config/config.json"]) /\
  (exists w',
      Config.new "other.json" events_table_world = (inl already_initialized, w') /\
      Config_instance w' = Some 1 /\
      file_reads w' = ["/app/config/config.json"] /\
      (1 <> 2 -> heap w' !! 1 = heap events_table_world !! 1)).
Proof.
  split.
  - apply (proj1 Config_singleton "config.json" (start events_fs ready_remote));
      reflexivity.
  - apply (proj2 (proj2 Config_singleton) "other.json" events_table_world 1).
    reflexivity.
Defined.

Lemma Config_instance_filled w inst :
  Config_instance w = Some inst -> Config.instance w = (inr (Some inst), w).
Proof. intros Hs. run. rewrite Hs. cbn. now rewrite Hs. Qed.

Lemma cfg_item_without_data items w inst :
  Config_instance w = Some inst ->
  dict_of inst w !! "data" = None ->
  cfg_item items w
  = (inl (AttributeError "data"), set_cfg_calls (cfg_calls w ++ [items]) w).
Proof.
  intros Hs Hd. unfold cfg_item.
  erewrite bind_inr by reflexivity.
  erewrite bind_inr by (apply Config_instance_filled; exact Hs).
  unfold bind, getattr, dict_of in *. cbn. now rewrite Hd.
Qed.

(** C10.  If the first construction (slot empty) fails while opening or
    parsing the file, the error is raised with the slot already filled by the
    new instance, which has no [data].  From then on every construction
    raises the usage error without reading a file, [Config.instance()]
    returns that instance without constructing or reading anything, and every
    [cfg_item] lookup fails on the missing [data]. *)
Theorem Config_init_not_atomic fname w e :
  Config_instance w = None ->
  fs w (os_path_join (config_dir w) fname) = inl e ->
  exists w1,
    Config.new fname w = (inl e, w1) /\
    Config_instance w1 = Some (next_loc w) /\
    dict_of (next_loc w) w1 !! "data" = None /\
    file_reads w1 = (file_reads w ++ [os_path_join (config_dir w) fname])%list /\
    (forall fname', exists w2,
        Config.new fname' w1 = (inl already_initialized, w2) /\
        Config_instance w2 = Some (next_loc w) /\
        file_reads w2 = file_reads w1) /\
    Config.instance w1 = (inr (Some (next_loc w)), w1) /\
    (forall items, exists w2,
        cfg_item items w1 = (inl (AttributeError "data"), w2) /\
        file_reads w2 = file_reads w1).
Proof.
  intros Hs Hf.
  destruct (Config.new fname w) as [r w1] eqn:Hnew.
  assert (Hslot : Config_instance w1 = Some (next_loc w)).
  { exact (Config_new_fills_slot fname w r w1 Hs Hnew). }
  revert Hnew. run. rewrite Hs. cbn. rewrite Hf. cbn.
  intros Hnew. inversion Hnew as [[Hr Hw1]]. clear Hnew.
  assert (Hdata : dict_of (next_loc w) w1 !! "data" = None).
  { rewrite <- Hw1. unfold dict_of. cbn.
    rewrite !lookup_alter_eq, lookup_insert_eq. cbn.
    rewrite !lookup_insert_ne by discriminate. apply lookup_empty. }
  assert (Hreads : file_reads w1
                   = (file_reads w ++ [os_path_join (config_dir w) fname])%list).
  { rewrite <- Hw1. reflexivity. }
  rewrite Hw1. exists w1.
  split; [reflexivity |].
  split; [exact Hslot |].
  split; [exact Hdata |].
  split; [exact Hreads |].
  split; [| split].
  - intros fname'.
    destruct (Config_new_again fname' w1 _ Hslot) as (w2 & Ha & Hb & Hc & _).
    exists w2. auto.
  - now apply Config_instance_filled.
  - intros items. eexists. split.
    + now apply cfg_item_without_data with (inst := next_loc w).
    + reflexivity.
Qed.

(** First construction with no readable file: the slot is taken by an
    instance without data, and stays taken. *)
Lemma Config_init_not_atomic_witness :
  exists w1,
    Config.new "config.json" (start empty_fs ready_remote) = (inl OSError, w1) /\
    Config_instance w1 = Some 0 /\
    dict_of 0 w1 !! "data" = None /\
    file_reads w1 = ["/app/config/config.json"] /\
    (forall fname', exists w2,
        Config.new fname' w1 = (inl already_initialized, w2) /\
        Config_instance w2 = Some 0 /\
        file_reads w2 = file_reads w1) /\
    Config.instance w1 = (inr (Some 0), w1) /\
    (forall items, exists w2,
        cfg_item items w1 = (inl (AttributeError "data"), w2) /\
        file_reads w2 = file_reads w1).
Proof.
  apply (Config_init_not_atomic "config.json" (start empty_fs ready_remote) OSError);
    reflexivity.
Defined.

(** ** What a computation sends to the remote service *)

Lemma appends_nothing {A} (m : M A) w r w' :
  appends nothing m -> m w = (r, w') ->
  remote w' = remote w /\ remote_log w' = remote_log w.
Proof.
  intros Hm H. destruct (Hm _ _ _ H) as (Hr & sent & Hl & Hs).
  split; [assumption |].
  destruct sent as [| c sent]; [now rewrite app_nil_r in Hl |].
  inversion Hs; discriminate.
Qed.

Lemma appends_still ok {A} (m : M A) :
  (forall w r w', m w = (r, w') -> remote w' = remote w /\ remote_log w' = remote_log w) ->
  appends ok m.
Proof.
  intros Hm w r w' H. destruct (Hm _ _ _ H) as [Hr Hl].
  split; [assumption |]. exists []. rewrite app_nil_r. auto.
Qed.

Lemma appends_bind ok {A B} (m : M A) (k : A -> M B) :
  appends ok m -> (forall a, appends ok (k a)) -> appends ok (bind m k).
Proof.
  intros Hm Hk w r w' H.
  apply bind_inv in H as [(e & H & _) | (a & w1 & H & H')].
  - eauto.
  - destruct (Hm _ _ _ H) as (Hr & sent & Hl & Hs).
    destruct (Hk _ _ _ _ H') as (Hr' & sent' & Hl' & Hs').
    split; [congruence |].
    exists (sent ++ sent')%list. split.
    + rewrite Hl', Hl. now rewrite app_assoc.
    + now apply Forall_app.
Qed.

Lemma appends_ret ok {A} (a : A) : appends ok (ret a).
Proof. apply appends_still. intros w r w' H. now inversion H. Qed.

Lemma appends_raise ok {A} e : appends ok (@raise A e).
Proof. apply appends_still. intros w r w' H. now inversion H. Qed.

Lemma appends_lift ok {A} (x : exn + A) : appends ok (lift x).
Proof. apply appends_still. intros w r w' H. now inversion H. Qed.

Lemma appends_gets ok {A} (f : world -> A) : appends ok (gets f).
Proof. apply appends_still. intros w r w' H. now inversion H. Qed.

Lemma appends_modify ok (f : world -> world) :
  (forall w, remote (f w) = remote w /\ remote_log (f w) = remote_log w) ->
  appends ok (modify f).
Proof.
  intros Hf. apply appends_still. intros w r w' H. inversion H. apply Hf.
Qed.

Lemma appends_getattr ok l name : appends ok (getattr l name).
Proof.
  apply appends_still. intros w r w'. unfold getattr.
  destruct (dict_of l w !! name); intros H; now inversion H.
Qed.

Lemma appends_setattr ok l name v : appends ok (setattr l name v).
Proof. apply appends_modify. now intros w. Qed.

Lemma appends_py_setattr ok l name v : appends ok (py_setattr l name v).
Proof.
  unfold py_setattr. destruct name; try apply appends_raise.
  destruct (_ || _); [apply appends_raise |].
  destruct (_ =? _); [apply appends_raise | apply appends_setattr].
Qed.

Lemma appends_new_object ok c : appends ok (new_object c).
Proof. apply appends_still. intros w r w' H. now inversion H. Qed.

Lemma appends_open_json_load ok path : appends ok (open_json_load path).
Proof. apply appends_still. intros w r w' H. now inversion H. Qed.

Lemma appends_print ok line : appends ok (print line).
Proof. apply appends_modify. now intros w. Qed.

Lemma appends_call_method ok {A} l name (body : M A) :
  appends ok body -> appends ok (call_method l name body).
Proof.
  intros Hb w r w'. unfold call_method.
  destruct (dict_of l w !! name).
  - intros H. inversion H; subst. split; [reflexivity |].
    exists []. rewrite app_nil_r. auto.
  - apply Hb.
Qed.


Lemma appends_construct ok c : appends ok (construct c).
Proof.
  apply appends_still. intros w r w'. unfold construct.
  destruct (library w c); intros H; now inversion H.
Qed.

Lemma appends_try ok {A} (body handler : M A) :
  appends ok body -> appends ok handler ->
  appends ok (try_except_NotFound body handler).
Proof.
  intros Hb Hh w r w'. unfold try_except_NotFound.
  destruct (body w) as [[e | a] w1] eqn:H.
  - destruct (is_NotFound e).
    + intros H'.
      destruct (Hb _ _ _ H) as (Hr & sent & Hl & Hs).
      destruct (Hh _ _ _ H') as (Hr' & sent' & Hl' & Hs').
      split; [congruence |].
      exists (sent ++ sent')%list. split.
      * rewrite Hl', Hl. now rewrite app_assoc.
      * now apply Forall_app.
    + intros H'. inversion H'; subst. eauto.
  - intros H'. inversion H'; subst. eauto.
Qed.

Lemma appends_for_each ok {A} (xs : list A) (body : A -> M unit) :
  (forall x, appends ok (body x)) -> appends ok (for_each xs body).
Proof.
  intros Hb. induction xs as [| x xs IH]; simpl.
  - apply appends_ret.
  - apply appends_bind; auto.
Qed.

Create HintDb appends_db.
#[local] Hint Resolve appends_ret appends_raise appends_lift appends_gets
  appends_getattr appends_setattr appends_py_setattr appends_new_object
  appends_open_json_load appends_print appends_call_method appends_try
  appends_for_each appends_construct : appends_db.

(** Splits a computation along its binds and branches. *)
Ltac appends_steps :=
  repeat match goal with
         | |- appends _ (bind _ _) => apply appends_bind; [| intros ?]
         | |- appends _ (match ?x with _ => _ end) => destruct x
         | |- appends _ (modify _) => apply appends_modify; now intros ?
         | |- appends _ (for_each _ _) => apply appends_for_each; intros ?
         | |- appends _ (call_method _ _ _) => apply appends_call_method
         | |- appends _ (try_except_NotFound _ _) => apply appends_try
         | |- forall _, _ => intros ?
         | |- _ => solve [eauto with appends_db]
         end.

Lemma appends_Config_new ok fname : appends ok (Config.new fname).
Proof. unfold Config.new, Config.__init__. appends_steps. Qed.

Lemma appends_Config_instance ok : appends ok Config.instance.
Proof.
  unfold Config.instance. appends_steps. apply appends_Config_new.
Qed.

Lemma appends_cfg_item ok items : appends ok (cfg_item items).
Proof.
  unfold cfg_item. appends_steps. apply appends_Config_instance.
Qed.

#[local] Hint Resolve appends_Config_new appends_Config_instance appends_cfg_item
  : appends_db.

Lemma appends_PlainTable ok self :
  appends ok (PlainTable.get_dataset_id self) /\
  appends ok (PlainTable.get_table_id self) /\
  appends ok (PlainTable.get_table_schema self).
Proof.
  unfold PlainTable.get_dataset_id, PlainTable.get_table_id,
    PlainTable.get_table_schema.
  split; [| split]; appends_steps.
Qed.

Lemma appends_Table ok self :
  appends ok (Table.get_dataset_id self) /\
  appends ok (Table.get_table_id self) /\
  appends ok (Table.get_table_schema self).
Proof.
  unfold Table.get_dataset_id, Table.get_table_id, Table.get_table_schema.
  split; [| split]; appends_steps.
Qed.

Lemma appends_table_method ok table name plain cached :
  (forall self, appends ok (plain self)) ->
  (forall self, appends ok (cached self)) ->
  appends ok (BigQuery.table_method table name plain cached).
Proof.
  intros Hp Hc. unfold BigQuery.table_method.
  apply appends_bind; [apply appends_gets | intros o].
  apply appends_call_method.
  destruct (cls <$> o) as [[| |] |]; auto using appends_raise.
Qed.


(** ** What a computation preserves *)

Lemma preserves_bind {A B} (P : world -> Prop) (m : M A) (k : A -> M B) :
  preserves P m -> (forall a, preserves P (k a)) -> preserves P (bind m k).
Proof.
  intros Hm Hk w r w' H HP.
  apply bind_inv in H as [(e & H & _) | (a & w1 & H & H')].
  - eauto.
  - eapply Hk; eauto.
Qed.

Lemma preserves_lift {A} (P : world -> Prop) (x : exn + A) : preserves P (lift x).
Proof. intros w r w' H. now inversion H. Qed.

Lemma preserves_for_each {A} (P : world -> Prop) (xs : list A) (body : A -> M unit) :
  (forall x, preserves P (body x)) -> preserves P (for_each xs body).
Proof.
  intros Hb. induction xs as [| x xs IH]; simpl.
  - intros w r w' H. now inversion H.
  - apply preserves_bind; auto.
Qed.

Lemma preserves_py_setattr (P : world -> Prop) l name v :
  (forall s w, name = PStr s -> P w -> P (snd (setattr l s v w))) ->
  preserves P (py_setattr l name v).
Proof.
  intros Hp w r w'. unfold py_setattr.
  destruct name as [| | | s | |]; try (intros H; now inversion H).
  destruct (_ || _); [intros H; now inversion H |].
  destruct (_ =? _); intros H; inversion H; subst; auto.
  intros HP. now apply (Hp s w).
Qed.

(** The loop of [attr_columns] sets attributes to their own names, which
    are strings: a property kept by every such assignment is kept by the
    loop. *)
Lemma preserves_attr_columns_loop (P : world -> Prop) self schema :
  (forall s w, P w -> P (snd (setattr self s (PStr s) w))) ->
  preserves P (attr_columns_loop self schema).
Proof.
  intros Hp. unfold attr_columns_loop.
  apply preserves_bind; [apply preserves_lift | intros columns].
  apply preserves_for_each. intros column.
  apply preserves_bind; [apply preserves_lift | intros column_name].
  apply preserves_py_setattr. intros s w ->. apply Hp.
Qed.

(** ** [cfg_item] *)

Lemma is_Some_alter (h : gmap nat pyobj) f i l :
  is_Some (h !! l) -> is_Some (alter f i h !! l).
Proof.
  intros [o Ho]. rewrite lookup_alter.
  destruct (decide (i = l)) as [-> |]; rewrite Ho; cbn; eauto.
Qed.

Lemma is_Some_insert (h : gmap nat pyobj) o i l :
  is_Some (h !! l) -> is_Some (<[i := o]> h !! l).
Proof.
  intros Hl. rewrite lookup_insert.
  destruct (decide (i = l)); eauto.
Qed.

(** A lookup is recorded once, and no object disappears. *)
Lemma cfg_item_effect items w r w' :
  cfg_item items w = (r, w') ->
  cfg_calls w' = (cfg_calls w ++ [items])%list /\
  (forall l, is_Some (heap w !! l) -> is_Some (heap w' !! l)).
Proof.
  run. destruct (Config_instance w) as [inst |] eqn:Hs; cbn.
  - rewrite Hs.
    destruct (dict_of inst _ !! "data"); [destruct (cfg_walk _ _) |];
      intros H; inversion H; subst; cbn; auto.
  - rewrite Hs. cbn.
    match goal with |- context [fs ?a ?b] => destruct (fs a b) end; cbn.
    + intros H; inversion H; subst; cbn. split; [reflexivity |].
      intros l Hl. repeat apply is_Some_alter. now apply is_Some_insert.
    + match goal with
      | |- context [dict_of ?l ?w0 !! "data"] => destruct (dict_of l w0 !! "data")
      end; [destruct (cfg_walk _ _) |];
        intros H; inversion H; subst; cbn; (split; [reflexivity |]);
        intros l Hl; repeat apply is_Some_alter; now apply is_Some_insert.
Qed.

(** ** The cached accessors of src/bigquery/table.py *)

Lemma dict_of_setattr_same l name v w :
  is_Some (heap w !! l) ->
  dict_of l (snd (setattr l name v w)) !! name = Some v.
Proof.
  intros [o Ho]. unfold dict_of, setattr, modify. cbn.
  rewrite lookup_alter_eq, Ho. cbn. apply lookup_insert_eq.
Qed.

Lemma dict_of_is_Some l name w x :
  dict_of l w !! name = Some x -> is_Some (heap w !! l).
Proof.
  unfold dict_of. destruct (heap w !! l); [eauto |].
  rewrite lookup_empty. discriminate.
Qed.

(** An attribute that holds a value other than [None] is what the accessor
    returns, with no lookup and no change. *)
Lemma cached_accessors_set self w v :
  is_None v = false ->
  (dict_of self w !! "table_id" = Some v ->
   Table.get_table_id self w = (inr v, w)) /\
  (dict_of self w !! "schema" = Some v ->
   Table.get_table_schema self w = (inr v, w)) /\
  (dict_of self w !! "location" = Some v ->
   Table.get_location self w = (inr v, w)) /\
  (dict_of self w !! "dataset_id" = Some v ->
   Table.get_dataset_id self w = (inr v, w)).
Proof.
  intros Hv.
  unfold Table.get_table_id, Table.get_table_schema, Table.get_location,
    Table.get_dataset_id, bind, getattr.
  repeat split; intros H; rewrite H, Hv; cbn; now rewrite H.
Qed.

(** The tail shared by the accessors once the attribute was found unset:
    look up [items], store the value, read it back. *)
Lemma cached_accessor_resolve self attr items w r w' :
  is_Some (heap w !! self) ->
  ((do v <- cfg_item items; setattr self attr v) ;; getattr self attr) w = (r, w') ->
  r = fst (cfg_item items w) /\
  cfg_calls w' = (cfg_calls w ++ [items])%list /\
  (forall v, r = inr v -> dict_of self w' !! attr = Some v).
Proof.
  intros Hself H.
  destruct (cfg_item items w) as [[e | v] w1] eqn:Hc;
    destruct (cfg_item_effect _ _ _ _ Hc) as [Hcalls Hobj].
  - rewrite (bind_inl _ _ _ _ _ (bind_inl _ _ _ _ _ Hc)) in H.
    inversion H; subst. repeat split; auto. discriminate.
  - pose proof (dict_of_setattr_same self attr v w1 (Hobj _ Hself)) as Hd.
    erewrite bind_inr in H;
      [| erewrite bind_inr by exact Hc; reflexivity].
    unfold getattr in H. cbn in Hd. rewrite Hd in H.
    inversion H; subst. repeat split; auto.
    intros v' Hv'. inversion Hv'; subst. exact Hd.
Qed.

Lemma bind_assoc {A B C} (m : M A) (k1 : A -> M B) (k2 : B -> M C) w :
  bind (bind m k1) k2 w = bind m (fun a => bind (k1 a) k2) w.
Proof. unfold bind. now destruct (m w) as [[e | a] w1]. Qed.

Lemma getattr_found l name w v :
  dict_of l w !! name = Some v -> getattr l name w = (inr v, w).
Proof. intros H. unfold getattr. now rewrite H. Qed.

(** An accessor that finds its attribute unset performs the lookup of its
    path, returns what the lookup returns and stores the value. *)
Lemma get_table_id_unset self name w r w' :
  dict_of self w !! "table_id" = Some PNone ->
  dict_of self w !! "table_name" = Some name ->
  Table.get_table_id self w = (r, w') ->
  r = fst (cfg_item (table_id_path name) w) /\
  cfg_calls w' = (cfg_calls w ++ [table_id_path name])%list /\
  (forall v, r = inr v -> dict_of self w' !! "table_id" = Some v).
Proof.
  intros Hid Hname H. unfold Table.get_table_id in H.
  rewrite (bind_inr _ _ _ _ _ (getattr_found _ _ _ _ Hid)) in H.
  cbn [is_None] in H. rewrite bind_assoc in H.
  rewrite (bind_inr _ _ _ _ _ (getattr_found _ _ _ _ Hname)) in H.
  eapply cached_accessor_resolve; eauto using dict_of_is_Some.
Qed.

Lemma get_table_schema_unset self name w r w' :
  dict_of self w !! "schema" = Some PNone ->
  dict_of self w !! "table_name" = Some name ->
  Table.get_table_schema self w = (r, w') ->
  r = fst (cfg_item (schema_path name) w) /\
  cfg_calls w' = (cfg_calls w ++ [schema_path name])%list /\
  (forall v, r = inr v -> dict_of self w' !! "schema" = Some v).
Proof.
  intros Hid Hname H. unfold Table.get_table_schema in H.
  rewrite (bind_inr _ _ _ _ _ (getattr_found _ _ _ _ Hid)) in H.
  cbn [is_None] in H. rewrite bind_assoc in H.
  rewrite (bind_inr _ _ _ _ _ (getattr_found _ _ _ _ Hname)) in H.
  eapply cached_accessor_resolve; eauto using dict_of_is_Some.
Qed.

Lemma get_location_unset self w r w' :
  dict_of self w !! "location" = Some PNone ->
  Table.get_location self w = (r, w') ->
  r = fst (cfg_item location_path w) /\
  cfg_calls w' = (cfg_calls w ++ [location_path])%list /\
  (forall v, r = inr v -> dict_of self w' !! "location" = Some v).
Proof.
  intros Hid H. unfold Table.get_location in H.
  rewrite (bind_inr _ _ _ _ _ (getattr_found _ _ _ _ Hid)) in H.
  cbn [is_None] in H.
  eapply cached_accessor_resolve; eauto using dict_of_is_Some.
Qed.

(** *** Construction *)

Lemma Table_new_unfold table_name table_id schema location w :
  Table.new table_name table_id schema location w
  = (do _ <- call_method (next_loc w) "attr_columns" (Table.attr_columns (next_loc w));
     ret (next_loc w))
      (Table_attributes_set table_name table_id schema location w).
Proof. reflexivity. Qed.

Lemma Table_attributes_set_dict table_name table_id schema location w :
  dict_of (next_loc w) (Table_attributes_set table_name table_id schema location w)
  = <["location" := location]>
      (<["schema" := schema]>
         (<["table_id" := table_id]>
            (<["table_name" := PStr table_name]> ∅))).
Proof.
  unfold dict_of, Table_attributes_set. cbn.
  rewrite !lookup_alter_eq, lookup_insert_eq. reflexivity.
Qed.

Lemma call_method_free {A} l name (body : M A) w :
  dict_of l w !! name = None -> call_method l name body w = body w.
Proof. intros H. unfold call_method. now rewrite H. Qed.

Lemma is_None_false v : v <> PNone -> is_None v = false.
Proof. destruct v; intros H; try reflexivity. now elim H. Qed.

(** ** C2: the four accessors *)

(** Without a [dataset_id] attribute, [get_dataset_id] fails on its first
    line. *)
Lemma get_dataset_id_without_attribute t w :
  dict_of t w !! "dataset_id" = None ->
  Table.get_dataset_id t w = (inl (AttributeError "dataset_id"), w).
Proof.
  intros H. unfold Table.get_dataset_id, bind, getattr. now rewrite H.
Qed.

(** C2 fails on the dataset id.  [__init__] of src/bigquery/table.py never
    assigns [self.dataset_id], so for the descriptor of the specification's
    scenario [get_dataset_id] raises [AttributeError] and performs no lookup,
    although the configuration holds the dataset id [ds1] under
    [(data, dataset_id)], which the class of src/table.py returns. *)
Theorem Table_get_dataset_id_raises :
  Table.get_dataset_id 0 events_table_world
  = (inl (AttributeError "dataset_id"), events_table_world) /\
  fst (cfg_item [PStr "data"; PStr "dataset_id"] events_table_world)
  = inr (PStr "ds1") /\
  fst (PlainTable.get_dataset_id 0 events_table_world) = inr (PStr "ds1").
Proof.
  split; [| split].
  - apply get_dataset_id_without_attribute. vm_compute. reflexivity.
  - vm_compute. reflexivity.
  - vm_compute. reflexivity.
Qed.

(** The other three accessors do what C2 says when an override other than
    [None] is in place: they return it and look nothing up. *)
Lemma overrides_returned self w v :
  v <> PNone ->
  (dict_of self w !! "table_id" = Some v ->
   Table.get_table_id self w = (inr v, w)) /\
  (dict_of self w !! "schema" = Some v ->
   Table.get_table_schema self w = (inr v, w)) /\
  (dict_of self w !! "location" = Some v ->
   Table.get_location self w = (inr v, w)).
Proof.
  intros Hv.
  destruct (cached_accessors_set self w v (is_None_false v Hv)) as (H1 & H2 & H3 & _).
  auto.
Qed.

(** An attribute injected by [attr_columns] replaces an override of the same
    name: a schema with a column called [table_id] makes [get_table_id]
    return that name. *)
Lemma attr_columns_overwrites_override :
  fst ((do t <- Table.new "events" (PStr "proj.ds1.events")
                  (PList [PDict [("name", PStr "table_id"); ("type", PStr "STRING");
                                 ("mode", PStr "NULLABLE")]])
                  PNone;
        Table.get_table_id t) (start events_fs ready_remote))
  = inr (PStr "table_id").
Proof. vm_compute. reflexivity. Qed.

(** * Further properties of the sources *)

(** ** [cfg_item] and the configuration it reads *)

Lemma cfg_walk_concat data p q :
  cfg_walk data (p ++ q)%list
  = match cfg_walk data p with
    | inl e => inl e
    | inr d => cfg_walk d q
    end.
Proof.
  revert data. induction p as [| key p IH]; intros data; simpl; [reflexivity |].
  destruct (subscript data key); [reflexivity | apply IH].
Qed.

(** X1.  The loop of [cfg_item] composes along the path: walking [p ++ q]
    is walking [p] and then, from the value reached, walking [q]; an error
    met while walking [p] is the error of the whole walk. *)
Theorem cfg_walk_app (data : pyval) (p q : list pyval) :
  cfg_walk data (p ++ q)%list
  = match cfg_walk data p with
    | inl e => inl e
    | inr d => cfg_walk d q
    end.
Proof.
  revert data. induction p as [| key p IH]; intros data; simpl.
  - reflexivity.
  - destruct (subscript data key) as [e | d]; [reflexivity | apply IH].
Qed.

Lemma cfg_item_answers items inst data w :
  loaded inst data w -> cfg_item items w = looked_up data items w.
Proof.
  intros [Hs Hd]. unfold cfg_item, looked_up.
  erewrite bind_inr by reflexivity.
  erewrite bind_inr by (apply Config_instance_filled; exact Hs).
  erewrite bind_inr by (apply getattr_found; exact Hd).
  reflexivity.
Qed.

(** X2.  Once the configuration is loaded, [cfg_item] answers from the
    loaded [data]: it returns the outcome of walking the path, whether a value
    or an error, opens no file, constructs nothing and changes nothing in the
    heap; the configuration stays loaded, so this holds for every later
    call. *)
Theorem cfg_item_loaded (items : list pyval) (inst : nat) (data : pyval) (w : world) :
  loaded inst data w ->
  cfg_item items w = looked_up data items w /\
  file_reads (snd (cfg_item items w)) = file_reads w /\
  heap (snd (cfg_item items w)) = heap w /\
  loaded inst data (snd (cfg_item items w)).
Proof.
  intros H. rewrite (cfg_item_answers _ _ _ _ H).
  repeat split; try reflexivity; apply H.
Qed.

(** In the world of the [events] descriptor the location is answered from
    the configuration loaded during construction. *)
Lemma cfg_item_loaded_witness :
  cfg_item location_path events_table_world
  = looked_up events_config location_path events_table_world /\
  file_reads (snd (cfg_item location_path events_table_world))
  = file_reads events_table_world /\
  heap (snd (cfg_item location_path events_table_world)) = heap events_table_world /\
  loaded 1 events_config (snd (cfg_item location_path events_table_world)).
Proof.
  apply (cfg_item_loaded location_path 1 events_config events_table_world).
  split; vm_compute; reflexivity.
Defined.

Lemma Config_new_loads fname w data :
  Config_instance w = None ->
  fs w (os_path_join (config_dir w) fname) = inr data ->
  exists w',
    Config.new fname w = (inr (next_loc w), w') /\
    loaded (next_loc w) data w' /\
    dict_of (next_loc w) w' !! "_Config__debug" = Some (PBool false) /\
    file_reads w' = (file_reads w ++ [os_path_join (config_dir w) fname])%list /\
    cfg_calls w' = cfg_calls w.
Proof.
  intros Hs Hf. run. rewrite Hs. cbn. rewrite Hf. cbn.
  eexists; split; [reflexivity |]. cbn.
  unfold loaded, dict_of. cbn.
  rewrite !lookup_alter_eq, lookup_insert_eq. cbn.
  repeat split.
Qed.

(** X3.  The first [cfg_item] of a process, when the configuration file
    loads, reads exactly that one file ([config.json] beside the config
    module), installs the singleton and answers from the loaded content; no
    later call of [cfg_item] opens a file again. *)
Theorem cfg_item_first_use (items : list pyval) (w : world) (data : pyval) :
  Config_instance w = None ->
  fs w (default_config_path w) = inr data ->
  exists w',
    cfg_item items w = (cfg_walk data items, w') /\
    loaded (next_loc w) data w' /\
    file_reads w' = (file_reads w ++ [default_config_path w])%list /\
    cfg_calls w' = (cfg_calls w ++ [items])%list /\
    forall items',
      cfg_item items' w' = looked_up data items' w' /\
      file_reads (snd (cfg_item items' w')) = file_reads w'.
Proof.
  intros Hs Hf. unfold default_config_path in *.
  destruct (Config_new_loads Config.default_filename
              (set_cfg_calls (cfg_calls w ++ [items]) w) data Hs Hf)
    as (w1 & Hnew & Hl & _ & Hr & Hc).
  exists w1. cbn in Hnew, Hl, Hr, Hc.
  assert (Hrun : cfg_item items w = (cfg_walk data items, w1)).
  { unfold cfg_item. erewrite bind_inr by reflexivity.
    erewrite bind_inr.
    2:{ unfold Config.instance, bind at 1. unfold gets at 1. cbn. rewrite Hs.
        erewrite bind_inr by (erewrite bind_inr by exact Hnew; reflexivity).
        unfold gets. now rewrite (proj1 Hl). }
    erewrite bind_inr by (apply getattr_found; exact (proj2 Hl)).
    reflexivity. }
  repeat split; try assumption; try apply Hl.
  - exact (cfg_item_answers _ _ _ _ Hl).
  - now rewrite (cfg_item_answers _ _ _ _ Hl).
Qed.

(** A fresh process with the [events] configuration: the first lookup reads
    [/app/config/config.json]. *)
Lemma cfg_item_first_use_witness :
  exists w',
    cfg_item location_path (start events_fs ready_remote)
    = (cfg_walk events_config location_path, w') /\
    loaded 0 events_config w' /\
    file_reads w' = ([] ++ ["/app/config/config.json"])%list /\
    cfg_calls w' = ([] ++ [location_path])%list /\
    forall items',
      cfg_item items' w' = looked_up events_config items' w' /\
      file_reads (snd (cfg_item items' w')) = file_reads w'.
Proof.
  apply (cfg_item_first_use location_path (start events_fs ready_remote) events_config);
    reflexivity.
Defined.

(** ** The [debug] property of [Config] *)

(** X4.  A construction of [Config] that returns leaves the new instance
    with [debug] equal to [False]; a construction that raises, because the
    file did not load or because the singleton already existed, leaves its
    instance without the attribute, so that reading [debug] on it raises
    [AttributeError]. *)
Theorem Config_debug_after_construction (fname : string) (w : world)
        (r : exn + nat) (w' : world) :
  Config.new fname w = (r, w') ->
  match r with
  | inr c => c = next_loc w /\ Config.debug c w' = (inr (PBool false), w')
  | inl _ =>
      Config.debug (next_loc w) w' = (inl (AttributeError "_Config__debug"), w')
  end.
Proof.
  run. destruct (Config_instance w) as [inst |]; cbn.
  - intros H. inversion H; subst. unfold Config.debug, getattr, dict_of. cbn.
    rewrite !lookup_alter_eq, lookup_insert_eq. cbn.
    rewrite !lookup_insert_ne by discriminate. now rewrite lookup_empty.
  - destruct (fs w (os_path_join (config_dir w) fname)); cbn;
      intros H; inversion H; subst; unfold Config.debug, getattr, dict_of; cbn;
      rewrite !lookup_alter_eq, lookup_insert_eq; cbn.
    + rewrite !lookup_insert_ne by discriminate. now rewrite lookup_empty.
    + split; [reflexivity |]. now rewrite lookup_insert_eq.
Qed.

(** The first construction with the [events] configuration, and the first
    construction without a readable file. *)
Lemma Config_debug_after_construction_witness :
  (0 = next_loc (start events_fs ready_remote) /\
   Config.debug 0 loaded_config_world = (inr (PBool false), loaded_config_world)) /\
  Config.debug (next_loc (start empty_fs ready_remote)) failed_config_world
  = (inl (AttributeError "_Config__debug"), failed_config_world).
Proof.
  split.
  - apply (Config_debug_after_construction "config.json"
             (start events_fs ready_remote) (inr 0) loaded_config_world).
    vm_compute. reflexivity.
  - apply (Config_debug_after_construction "config.json"
             (start empty_fs ready_remote) (inl OSError) failed_config_world).
    vm_compute. reflexivity.
Defined.

(** X5.  Assigning [debug] on an existing instance always succeeds, with any
    value (the annotation [bool] is not enforced); a following read returns
    the value assigned.  The assignment touches nothing else: the other
    attributes of the instance, [data] among them, the other objects and the
    singleton slot are as before. *)
Theorem Config_debug_round_trip (c : nat) (value : pyval) (w : world) :
  is_Some (heap w !! c) ->
  let w' := snd (Config.set_debug c value w) in
  Config.set_debug c value w = (inr tt, w') /\
  Config.debug c w' = (inr value, w') /\
  (forall name, name <> "_Config__debug" ->
                dict_of c w' !! name = dict_of c w !! name) /\
  (forall l, l <> c -> heap w' !! l = heap w !! l) /\
  Config_instance w' = Config_instance w.
Proof.
  intros [o Ho]. cbv zeta.
  unfold Config.set_debug, Config.debug, setattr, getattr, modify, dict_of. cbn.
  rewrite lookup_alter_eq, Ho. cbn.
  split; [reflexivity |]. split; [now rewrite lookup_insert_eq |].
  split; [| split; [| reflexivity]].
  - intros name Hne. now rewrite lookup_insert_ne by congruence.
  - intros l Hne. now rewrite lookup_alter_ne by congruence.
Qed.

(** Turning debugging on in the loaded configuration. *)
Lemma Config_debug_round_trip_witness :
  let w' := snd (Config.set_debug 0 (PBool true) loaded_config_world) in
  Config.set_debug 0 (PBool true) loaded_config_world = (inr tt, w') /\
  Config.debug 0 w' = (inr (PBool true), w') /\
  (forall name, name <> "_Config__debug" ->
                dict_of 0 w' !! name = dict_of 0 loaded_config_world !! name) /\
  (forall l, l <> 0 -> heap w' !! l = heap loaded_config_world !! l) /\
  Config_instance w' = Config_instance loaded_config_world.
Proof.
  apply (Config_debug_round_trip 0 (PBool true) loaded_config_world).
  vm_compute. eexists. reflexivity.
Defined.

(** ** The accessors of src/table.py *)

(** X6.  Over a loaded configuration the five accessors of the [Table] of
    src/table.py answer each call from the configuration: each returns the
    outcome of walking its own path and changes nothing but the record of the
    lookup.  Nothing is stored on the descriptor, so a repeated call performs
    the lookup again. *)
Theorem PlainTable_accessors_uncached (self : nat) (name : pyval)
        (inst : nat) (data : pyval) (w : world) :
  loaded inst data w ->
  dict_of self w !! "table_name" = Some name ->
  PlainTable.get_table_id self w = looked_up data (table_id_path name) w /\
  PlainTable.get_table_schema self w = looked_up data (schema_path name) w /\
  PlainTable.get_data self w = looked_up data (data_path name) w /\
  PlainTable.get_dataset_id self w = looked_up data dataset_id_path w /\
  PlainTable.get_location self w = looked_up data location_path w.
Proof.
  intros Hl Hn.
  unfold PlainTable.get_table_id, PlainTable.get_table_schema, PlainTable.get_data,
    PlainTable.get_dataset_id, PlainTable.get_location.
  rewrite !(bind_inr _ _ _ _ _ (getattr_found _ _ _ _ Hn)).
  repeat split; exact (cfg_item_answers _ _ _ _ Hl).
Qed.

(** The [events] descriptor of src/table.py over the [EU] configuration. *)
Lemma PlainTable_accessors_uncached_witness :
  PlainTable.get_table_id 0 eu_plain_table_world
  = looked_up eu_config (table_id_path (PStr "events")) eu_plain_table_world /\
  PlainTable.get_table_schema 0 eu_plain_table_world
  = looked_up eu_config (schema_path (PStr "events")) eu_plain_table_world /\
  PlainTable.get_data 0 eu_plain_table_world
  = looked_up eu_config (data_path (PStr "events")) eu_plain_table_world /\
  PlainTable.get_dataset_id 0 eu_plain_table_world
  = looked_up eu_config dataset_id_path eu_plain_table_world /\
  PlainTable.get_location 0 eu_plain_table_world
  = looked_up eu_config location_path eu_plain_table_world.
Proof.
  apply (PlainTable_accessors_uncached 0 (PStr "events") 1 eu_config
           eu_plain_table_world).
  - split; vm_compute; reflexivity.
  - vm_compute. reflexivity.
Defined.

(** ** The two table classes side by side *)

(** X7.  For a descriptor of src/bigquery/table.py whose table id, schema or
    location is still unset, the accessor of that field returns exactly what
    the accessor of src/table.py returns in the same state, value or error,
    and both perform the same single lookup. *)
Theorem Table_agrees_with_PlainTable (t : nat) (name : pyval) (w : world) :
  dict_of t w !! "table_name" = Some name ->
  (dict_of t w !! "table_id" = Some PNone ->
   fst (Table.get_table_id t w) = fst (PlainTable.get_table_id t w) /\
   cfg_calls (snd (Table.get_table_id t w))
   = cfg_calls (snd (PlainTable.get_table_id t w))) /\
  (dict_of t w !! "schema" = Some PNone ->
   fst (Table.get_table_schema t w) = fst (PlainTable.get_table_schema t w) /\
   cfg_calls (snd (Table.get_table_schema t w))
   = cfg_calls (snd (PlainTable.get_table_schema t w))) /\
  (dict_of t w !! "location" = Some PNone ->
   fst (Table.get_location t w) = fst (PlainTable.get_location t w) /\
   cfg_calls (snd (Table.get_location t w))
   = cfg_calls (snd (PlainTable.get_location t w))).
Proof.
  intros Hn.
  unfold PlainTable.get_table_id, PlainTable.get_table_schema, PlainTable.get_location.
  rewrite !(bind_inr _ _ _ _ _ (getattr_found _ _ _ _ Hn)).
  split; [| split]; intros Hu.
  - destruct (get_table_id_unset t name w _ _ Hu Hn (surjective_pairing _))
      as (Hr & Hc & _).
    split; [exact Hr |]. rewrite Hc. symmetry.
    exact (proj1 (cfg_item_effect _ _ _ _ (surjective_pairing _))).
  - destruct (get_table_schema_unset t name w _ _ Hu Hn (surjective_pairing _))
      as (Hr & Hc & _).
    split; [exact Hr |]. rewrite Hc. symmetry.
    exact (proj1 (cfg_item_effect _ _ _ _ (surjective_pairing _))).
  - destruct (get_location_unset t w _ _ Hu (surjective_pairing _))
      as (Hr & Hc & _).
    split; [exact Hr |]. rewrite Hc. symmetry.
    exact (proj1 (cfg_item_effect _ _ _ _ (surjective_pairing _))).
Qed.

(** The [events] descriptor before its schema is resolved. *)
Lemma Table_agrees_with_PlainTable_witness :
  (fst (Table.get_table_id 0 events_unset_world)
   = fst (PlainTable.get_table_id 0 events_unset_world) /\
   cfg_calls (snd (Table.get_table_id 0 events_unset_world))
   = cfg_calls (snd (PlainTable.get_table_id 0 events_unset_world))) /\
  (fst (Table.get_table_schema 0 events_unset_world)
   = fst (PlainTable.get_table_schema 0 events_unset_world) /\
   cfg_calls (snd (Table.get_table_schema 0 events_unset_world))
   = cfg_calls (snd (PlainTable.get_table_schema 0 events_unset_world))) /\
  (fst (Table.get_location 0 events_unset_world)
   = fst (PlainTable.get_location 0 events_unset_world) /\
   cfg_calls (snd (Table.get_location 0 events_unset_world))
   = cfg_calls (snd (PlainTable.get_location 0 events_unset_world))).
Proof.
  destruct (Table_agrees_with_PlainTable 0 (PStr "events") events_unset_world)
    as (H1 & H2 & H3); [vm_compute; reflexivity |].
  split; [| split]; [apply H1 | apply H2 | apply H3]; vm_compute; reflexivity.
Defined.

Lemma loaded_setattr inst data l name v w :
  name <> "data" -> loaded inst data w -> loaded inst data (snd (setattr l name v w)).
Proof.
  intros Hne [Hs Hd]. split; [exact Hs |].
  unfold dict_of, setattr, modify in *. cbn.
  rewrite lookup_alter.
  destruct (decide (l = inst)) as [-> |]; [| exact Hd].
  destruct (heap w !! inst) as [o |]; cbn; [| exact Hd].
  now rewrite lookup_insert_ne by congruence.
Qed.

(** X8.  [None] is the mark of an unset field, so a [null] in the
    configuration is never memoized: when the configured location is [null]
    and the descriptor's location is unset, [get_location] performs the
    lookup, returns [None] and leaves the location unset, in a state where
    the next call does the same again. *)
Theorem null_is_looked_up_again (t inst : nat) (data : pyval) (w : world) :
  loaded inst data w ->
  cfg_walk data location_path = inr PNone ->
  dict_of t w !! "location" = Some PNone ->
  let w' := snd (Table.get_location t w) in
  fst (Table.get_location t w) = inr PNone /\
  cfg_calls w' = (cfg_calls w ++ [location_path])%list /\
  loaded inst data w' /\
  dict_of t w' !! "location" = Some PNone.
Proof.
  intros Hl Hw Hu. cbv zeta.
  set (w1 := snd (setattr t "location" PNone
                    (set_cfg_calls (cfg_calls w ++ [location_path]) w))).
  assert (Hrun : Table.get_location t w = (inr PNone, w1)).
  { unfold Table.get_location.
    rewrite (bind_inr _ _ _ _ _ (getattr_found _ _ _ _ Hu)). cbn [is_None].
    erewrite bind_inr.
    2:{ erewrite bind_inr; [reflexivity |].
        rewrite (cfg_item_answers _ _ _ _ Hl). unfold looked_up.
        unfold location_path in Hw. rewrite Hw. reflexivity. }
    apply getattr_found. apply dict_of_setattr_same.
    exact (dict_of_is_Some _ _ _ _ Hu). }
  rewrite Hrun. cbn [fst snd].
  split; [reflexivity |]. split; [reflexivity |]. split.
  - apply loaded_setattr; [discriminate | exact Hl].
  - apply dict_of_setattr_same. exact (dict_of_is_Some _ _ _ _ Hu).
Qed.

(** The [events] descriptor over the configuration with a [null]
    location. *)
Lemma null_is_looked_up_again_witness :
  let w' := snd (Table.get_location 0 null_location_world) in
  fst (Table.get_location 0 null_location_world) = inr PNone /\
  cfg_calls w' = (cfg_calls null_location_world ++ [location_path])%list /\
  loaded 1 null_location_config w' /\
  dict_of 0 w' !! "location" = Some PNone.
Proof.
  apply (null_is_looked_up_again 0 1 null_location_config null_location_world).
  - split; vm_compute; reflexivity.
  - reflexivity.
  - vm_compute. reflexivity.
Defined.

(** ** Construction of the descriptors *)

Lemma PlainTable_new_unfold table_name w :
  PlainTable.new table_name w
  = (do _ <- call_method (next_loc w) "attr_columns"
               (PlainTable.attr_columns (next_loc w));
     ret (next_loc w))
      (PlainTable_attributes_set table_name w).
Proof. reflexivity. Qed.

Lemma PlainTable_attributes_set_dict table_name w :
  dict_of (next_loc w) (PlainTable_attributes_set table_name w)
  = <["table_name" := PStr table_name]> ∅.
Proof.
  unfold dict_of, PlainTable_attributes_set. cbn.
  rewrite !lookup_alter_eq, lookup_insert_eq. reflexivity.
Qed.

Lemma loaded_Table_attributes_set inst data name table_id schema location w :
  inst <> next_loc w -> loaded inst data w ->
  loaded inst data (Table_attributes_set name table_id schema location w).
Proof.
  intros Hne [Hs Hd]. split; [exact Hs |].
  unfold dict_of, Table_attributes_set in *. cbn.
  now rewrite !lookup_alter_ne, lookup_insert_ne by congruence.
Qed.

Lemma loaded_PlainTable_attributes_set inst data name w :
  inst <> next_loc w -> loaded inst data w ->
  loaded inst data (PlainTable_attributes_set name w).
Proof.
  intros Hne [Hs Hd]. split; [exact Hs |].
  unfold dict_of, PlainTable_attributes_set in *. cbn.
  now rewrite !lookup_alter_ne, lookup_insert_ne by congruence.
Qed.

Lemma schema_of_unknown_table data tables name :
  cfg_walk data [PStr "data"; PStr "tables"] = inr (PDict tables) ->
  dict_get name tables = None ->
  cfg_walk data (schema_path (PStr name)) = inl (KeyError (PStr name)).
Proof.
  intros Ht Hn.
  change (schema_path (PStr name))
    with ([PStr "data"; PStr "tables"] ++ [PStr name; PStr "schema"])%list.
  rewrite cfg_walk_concat, Ht. cbn. now rewrite Hn.
Qed.

(** X9.  A descriptor cannot be constructed for a table the loaded
    configuration does not list: in both classes (in src/bigquery/table.py
    when no schema is passed) the constructor raises [KeyError] with the table
    name as its key, after exactly one lookup, that of the schema. *)
Theorem unknown_table_name (name : string) (inst : nat) (data : pyval)
        (tables : list (string * pyval)) (w : world) :
  loaded inst data w ->
  inst <> next_loc w ->
  cfg_walk data [PStr "data"; PStr "tables"] = inr (PDict tables) ->
  dict_get name tables = None ->
  (forall table_id location, exists w',
      Table.new name table_id PNone location w = (inl (KeyError (PStr name)), w') /\
      cfg_calls w' = (cfg_calls w ++ [schema_path (PStr name)])%list) /\
  (exists w',
      PlainTable.new name w = (inl (KeyError (PStr name)), w') /\
      cfg_calls w' = (cfg_calls w ++ [schema_path (PStr name)])%list).
Proof.
  intros Hl Hne Ht Hn.
  pose proof (schema_of_unknown_table _ _ _ Ht Hn) as Hwalk.
  split.
  - intros table_id location.
    rewrite Table_new_unfold.
    pose proof (Table_attributes_set_dict name table_id PNone location w) as Hdict.
    pose proof (loaded_Table_attributes_set _ _ name table_id PNone location _ Hne Hl)
      as Hl0.
    set (self := next_loc w) in *.
    set (W0 := Table_attributes_set name table_id PNone location w) in *.
    exists (set_cfg_calls (cfg_calls W0 ++ [schema_path (PStr name)]) W0).
    split; [| reflexivity].
    apply bind_inl.
    rewrite call_method_free by (rewrite Hdict; reflexivity).
    unfold Table.attr_columns. apply bind_inl.
    rewrite call_method_free by (rewrite Hdict; reflexivity).
    unfold Table.get_table_schema.
    erewrite bind_inr by (apply getattr_found; rewrite Hdict; reflexivity).
    cbn [is_None]. apply bind_inl.
    erewrite bind_inr by (apply getattr_found; rewrite Hdict; reflexivity).
    apply bind_inl.
    rewrite (cfg_item_answers _ _ _ _ Hl0). unfold looked_up.
    fold (schema_path (PStr name)). now rewrite Hwalk.
  - rewrite PlainTable_new_unfold.
    pose proof (PlainTable_attributes_set_dict name w) as Hdict.
    pose proof (loaded_PlainTable_attributes_set _ _ name _ Hne Hl) as Hl0.
    set (self := next_loc w) in *.
    set (W0 := PlainTable_attributes_set name w) in *.
    exists (set_cfg_calls (cfg_calls W0 ++ [schema_path (PStr name)]) W0).
    split; [| reflexivity].
    apply bind_inl.
    rewrite call_method_free by (rewrite Hdict; reflexivity).
    unfold PlainTable.attr_columns. apply bind_inl.
    rewrite call_method_free by (rewrite Hdict; reflexivity).
    unfold PlainTable.get_table_schema.
    erewrite bind_inr by (apply getattr_found; rewrite Hdict; reflexivity).
    rewrite (cfg_item_answers _ _ _ _ Hl0). unfold looked_up.
    fold (schema_path (PStr name)). now rewrite Hwalk.
Qed.

(** The loaded [events] configuration lists no table [orders]. *)
Lemma unknown_table_name_witness :
  (forall table_id location, exists w',
      Table.new "orders" table_id PNone location loaded_config_world
      = (inl (KeyError (PStr "orders")), w') /\
      cfg_calls w'
      = (cfg_calls loaded_config_world ++ [schema_path (PStr "orders")])%list) /\
  (exists w',
      PlainTable.new "orders" loaded_config_world
      = (inl (KeyError (PStr "orders")), w') /\
      cfg_calls w'
      = (cfg_calls loaded_config_world ++ [schema_path (PStr "orders")])%list).
Proof.
  apply (unknown_table_name "orders" 0 events_config
           [("events", PDict [("table_id", PStr "proj.ds1.events");
                              ("schema", events_schema)])]
           loaded_config_world).
  - split; vm_compute; reflexivity.
  - vm_compute. discriminate.
  - reflexivity.
  - reflexivity.
Defined.

(** X10.  A descriptor of src/bigquery/table.py that is given a schema is
    constructed without the configuration: whatever the outcome, the
    constructor performs no lookup, opens no file, leaves the singleton slot
    as it is and sends nothing to the service. *)
Theorem Table_with_schema_is_offline (name : string) (table_id schema location : pyval)
        (w : world) (r : exn + nat) (w' : world) :
  schema <> PNone ->
  Table.new name table_id schema location w = (r, w') ->
  offline w w'.
Proof.
  intros Hne H. rewrite Table_new_unfold in H.
  pose proof (Table_attributes_set_dict name table_id schema location w) as Hdict.
  set (self := next_loc w) in *.
  set (W0 := Table_attributes_set name table_id schema location w) in *.
  assert (Hs : Table.get_table_schema self W0 = (inr schema, W0)).
  { apply overrides_returned; [exact Hne | rewrite Hdict; reflexivity]. }
  assert (H0 : offline w W0) by (repeat split).
  assert (Hloop : forall rl w1,
             attr_columns_loop self schema W0 = (rl, w1) -> offline w w1).
  { intros rl w1 Hl.
    apply (preserves_attr_columns_loop (offline w) self schema
             ltac:(intros s w0 Hw0; exact Hw0) _ _ _ Hl H0). }
  assert (Hattr : call_method self "attr_columns" (Table.attr_columns self) W0
                  = attr_columns_loop self schema W0).
  { rewrite call_method_free by (rewrite Hdict; reflexivity).
    unfold Table.attr_columns.
    apply bind_inr. rewrite call_method_free by (rewrite Hdict; reflexivity).
    exact Hs. }
  apply bind_inv in H as [(e & H & _) | ([] & w1 & H & H')].
  - rewrite Hattr in H. eauto.
  - inversion H'; subst. rewrite Hattr in H. eauto.
Qed.

(** With its schema passed in, the [events] descriptor is constructed in a
    process that has no configuration file at all. *)
Lemma Table_with_schema_is_offline_witness :
  offline (start empty_fs ready_remote)
          (snd (Table.new "events" PNone events_schema PNone
                  (start empty_fs ready_remote))).
Proof.
  apply (Table_with_schema_is_offline "events" PNone events_schema PNone
           (start empty_fs ready_remote) _ _ ltac:(discriminate)
           (surjective_pairing _)).
Defined.

(** ** The attributes made by [attr_columns] *)

Lemma attr_columns_loop_cons self column columns w :
  attr_columns_loop self (PList (column :: columns)) w
  = ((do column_name <- lift (subscript column (PStr "name"));
      py_setattr self column_name column_name) ;;
     attr_columns_loop self (PList columns)) w.
Proof. reflexivity. Qed.

Lemma py_setattr_returns l name v w w1 :
  py_setattr l name v w = (inr tt, w1) ->
  exists s, name = PStr s /\ w1 = snd (setattr l s v w).
Proof.
  unfold py_setattr. destruct name as [| | | s | |]; try discriminate.
  destruct (_ || _); [discriminate |].
  destruct (_ =? _); [discriminate |].
  intros H. exists s. split; [reflexivity |]. now rewrite H.
Qed.

Lemma dict_of_setattr_other l l' name a v w :
  name <> a -> dict_of l (snd (setattr l' name v w)) !! a = dict_of l w !! a.
Proof.
  intros Hne. unfold dict_of, setattr, modify. cbn.
  rewrite lookup_alter.
  destruct (decide (l' = l)) as [-> |]; [| reflexivity].
  destruct (heap w !! l) as [o |]; cbn; [| reflexivity].
  now rewrite lookup_insert_ne by congruence.
Qed.

Lemma own_name_setattr self a l s w :
  dict_of self w !! a = Some (PStr a) ->
  dict_of self (snd (setattr l s (PStr s) w)) !! a = Some (PStr a).
Proof.
  intros H. destruct (String.eqb_spec s a) as [-> | Hne].
  - unfold dict_of, setattr, modify in *. cbn.
    rewrite lookup_alter.
    destruct (decide (l = self)) as [-> |]; [| exact H].
    destruct (heap w !! self) as [o |]; cbn; [| exact H].
    apply lookup_insert_eq.
  - now rewrite dict_of_setattr_other.
Qed.

Lemma is_Some_setattr l l' name v w :
  is_Some (heap w !! l) -> is_Some (heap (snd (setattr l' name v w)) !! l).
Proof. intros H. unfold setattr, modify. cbn. now apply is_Some_alter. Qed.

Lemma attr_columns_loop_sets self columns :
  forall w w',
    is_Some (heap w !! self) ->
    attr_columns_loop self (PList columns) w = (inr tt, w') ->
    Forall (fun column =>
              exists a, named a column /\ dict_of self w' !! a = Some (PStr a))
           columns /\
    (forall a, (forall column, In column columns -> ~ named a column) ->
               dict_of self w' !! a = dict_of self w !! a).
Proof.
  induction columns as [| column columns IH]; intros w w' Hself H.
  - inversion H; subst. split; [constructor | reflexivity].
  - rewrite attr_columns_loop_cons in H.
    apply bind_inv in H as [(e & _ & He) | ([] & w1 & Hc & Hrest)]; [discriminate |].
    apply bind_inv in Hc as [(e & _ & He) | (n & w0 & Hn & Hset)]; [discriminate |].
    inversion Hn; subst w0. clear Hn.
    destruct (py_setattr_returns _ _ _ _ _ Hset) as (s & -> & ->).
    match goal with Hname : subscript column _ = _ |- _ => rename Hname into Hs end.
    destruct (IH _ _ (is_Some_setattr _ _ _ _ _ Hself) Hrest) as [Hall Hframe].
    split.
    + constructor; [| exact Hall].
      exists s. split; [exact Hs |].
      apply (preserves_attr_columns_loop
               (fun w0 => dict_of self w0 !! s = Some (PStr s)) self (PList columns)
               ltac:(intros s' w0; apply own_name_setattr) _ _ _ Hrest).
      now apply dict_of_setattr_same.
    + intros a Ha. rewrite Hframe by (intros c Hc; apply Ha; now right).
      apply dict_of_setattr_other. intros ->.
      apply (Ha column); [now left | exact Hs].
Qed.

(** X11.  When the loop of [attr_columns] has run through a schema, whatever
    kind of iterable the schema is, every column it visited has given the
    descriptor an attribute of its own name holding that name, and every
    attribute that is not the name of a column holds what it held before. *)
Theorem attr_columns_loop_injects (self : nat) (schema : pyval) (columns : list pyval)
        (w w' : world) :
  is_Some (heap w !! self) ->
  py_iter schema = inr columns ->
  attr_columns_loop self schema w = (inr tt, w') ->
  Forall (fun column =>
            exists a, named a column /\ dict_of self w' !! a = Some (PStr a))
         columns /\
  (forall a, (forall column, In column columns -> ~ named a column) ->
             dict_of self w' !! a = dict_of self w !! a).
Proof.
  intros Hself Hiter H.
  apply attr_columns_loop_sets; [exact Hself |].
  unfold attr_columns_loop in *.
  rewrite (bind_inr _ _ _ _ _ (f_equal (fun x => (x, w)) Hiter : lift _ w = _)) in H.
  exact H.
Qed.

(** The unresolved [events] descriptor and the column [ts]. *)
Lemma attr_columns_loop_injects_witness :
  Forall (fun column =>
            exists a, named a column /\ dict_of 0 ts_injected_world !! a = Some (PStr a))
         [ts_column] /\
  (forall a, (forall column, In column [ts_column] -> ~ named a column) ->
             dict_of 0 ts_injected_world !! a = dict_of 0 events_unset_world !! a).
Proof.
  apply (attr_columns_loop_injects 0 (PList [ts_column]) [ts_column]
           events_unset_world ts_injected_world).
  - vm_compute. eexists. reflexivity.
  - reflexivity.
  - vm_compute. reflexivity.
Defined.

Lemma for_each_app {A} (xs ys : list A) (body : A -> M unit) w :
  for_each (xs ++ ys) body w = (for_each xs body ;; for_each ys body) w.
Proof.
  revert w. induction xs as [| x xs IH]; intros w; simpl.
  - reflexivity.
  - unfold bind. destruct (body x w) as [[e | []] w1]; [reflexivity |].
    rewrite IH. reflexivity.
Qed.

(** X12.  [attr_columns] stops at the first column from which no name can be
    read and raises the error of that subscript; the attributes made for the
    columns before it stay, and no later column is looked at. *)
Theorem attr_columns_loop_aborts (self : nat) (done : list pyval) (bad : pyval)
        (rest : list pyval) (e : exn) (w w1 : world) :
  attr_columns_loop self (PList done) w = (inr tt, w1) ->
  subscript bad (PStr "name") = inl e ->
  attr_columns_loop self (PList (done ++ bad :: rest)) w = (inl e, w1).
Proof.
  intros Hdone Hbad.
  change (attr_columns_loop self (PList (done ++ bad :: rest)) w)
    with (for_each (done ++ bad :: rest)
            (fun column =>
               do column_name <- lift (subscript column (PStr "name"));
               py_setattr self column_name column_name) w).
  rewrite for_each_app.
  erewrite bind_inr by exact Hdone.
  simpl. apply bind_inl. apply bind_inl. unfold lift. now rewrite Hbad.
Qed.

(** [ts], then a column without a name, then [ts] again. *)
Lemma attr_columns_loop_aborts_witness :
  attr_columns_loop 0 (PList ([ts_column] ++ nameless_column :: [ts_column]))
    events_unset_world
  = (inl (KeyError (PStr "name")), ts_injected_world).
Proof.
  apply (attr_columns_loop_aborts 0 [ts_column] nameless_column [ts_column]
           (KeyError (PStr "name")) events_unset_world ts_injected_world).
  - vm_compute. reflexivity.
  - reflexivity.
Defined.

(** X13.  A column that bears the name of the method [get_table_schema]
    disables it: once [attr_columns] has run through a schema with such a
    column, the attribute hides the method, and [get_date_columns] and
    [attr_columns] of both classes raise [TypeError] where they call it. *)
Theorem column_named_like_method (self : nat) (columns : list pyval) (column : pyval)
        (w w' : world) :
  is_Some (heap w !! self) ->
  attr_columns_loop self (PList columns) w = (inr tt, w') ->
  In column columns ->
  named "get_table_schema" column ->
  Table.get_date_columns self w' = (inl TypeError, w') /\
  PlainTable.get_date_columns self w' = (inl TypeError, w') /\
  Table.attr_columns self w' = (inl TypeError, w') /\
  PlainTable.attr_columns self w' = (inl TypeError, w').
Proof.
  intros Hself Hrun Hin Hname.
  destruct (attr_columns_loop_sets _ _ _ _ Hself Hrun) as [Hall _].
  rewrite List.Forall_forall in Hall.
  destruct (Hall _ Hin) as (a & Ha & Hattr).
  unfold named in *. rewrite Hname in Ha. inversion Ha; subst a.
  unfold Table.get_date_columns, PlainTable.get_date_columns,
    Table.attr_columns, PlainTable.attr_columns, bind, call_method.
  rewrite Hattr. repeat split.
Qed.

(** The unresolved [events] descriptor and a schema with such a column. *)
Lemma column_named_like_method_witness :
  let w' := snd (attr_columns_loop 0 (PList [ts_column; method_named_column])
                   events_unset_world) in
  Table.get_date_columns 0 w' = (inl TypeError, w') /\
  PlainTable.get_date_columns 0 w' = (inl TypeError, w') /\
  Table.attr_columns 0 w' = (inl TypeError, w') /\
  PlainTable.attr_columns 0 w' = (inl TypeError, w').
Proof.
  apply (column_named_like_method 0 [ts_column; method_named_column]
           method_named_column events_unset_world).
  - vm_compute. eexists. reflexivity.
  - vm_compute. reflexivity.
  - right. left. reflexivity.
  - reflexivity.
Defined.

(** ** C6: when the optional fields are resolved *)








(** ** The dataset id of src/bigquery/table.py *)

(** A lookup changes no object that exists already. *)
Lemma cfg_item_frame items w r w' l :
  cfg_item items w = (r, w') ->
  l < next_loc w ->
  l < next_loc w' /\ heap w' !! l = heap w !! l.
Proof.
  run. destruct (Config_instance w) as [inst |] eqn:Hs; cbn.
  - rewrite Hs.
    destruct (dict_of inst _ !! "data"); [destruct (cfg_walk _ _) |];
      intros H; inversion H; subst; cbn; auto.
  - rewrite Hs. cbn.
    match goal with |- context [fs ?a ?b] => destruct (fs a b) end; cbn.
    + intros H Hl; inversion H; subst; cbn. split; [lia |].
      now rewrite !lookup_alter_ne, lookup_insert_ne by lia.
    + match goal with
      | |- context [dict_of ?l ?w0 !! "data"] => destruct (dict_of l w0 !! "data")
      end; [destruct (cfg_walk _ _) |];
        intros H Hl; inversion H; subst; cbn; (split; [lia |]);
        now rewrite !lookup_alter_ne, lookup_insert_ne by lia.
Qed.

Lemma getattr_world l name w r w' : getattr l name w = (r, w') -> w' = w.
Proof.
  unfold getattr. destruct (dict_of l w !! name); intros H; now inversion H.
Qed.

Lemma dataset_id_unresolved_setattr t l s w :
  dataset_id_unresolved t w ->
  dataset_id_unresolved t (snd (setattr l s (PStr s) w)).
Proof.
  intros [Hl Hd]. split; [exact Hl |].
  destruct (String.eqb_spec s "dataset_id") as [-> | Hne].
  - destruct Hd as [Hd | Hd].
    + unfold dict_of, setattr, modify in *. cbn.
      rewrite lookup_alter.
      destruct (decide (l = t)) as [-> |]; [| now left].
      destruct (heap w !! t) as [o |]; cbn; [| now left].
      right. apply lookup_insert_eq.
    + right. now apply own_name_setattr.
  - now rewrite dict_of_setattr_other.
Qed.

(** Resolving the schema leaves the dataset id as it is. *)
Lemma dataset_id_unresolved_get_table_schema t :
  preserves (dataset_id_unresolved t) (Table.get_table_schema t).
Proof.
  assert (Hget : forall name, preserves (dataset_id_unresolved t) (getattr t name)).
  { intros name w r w' H. now rewrite (getattr_world _ _ _ _ _ H). }
  unfold Table.get_table_schema.
  apply preserves_bind; [apply Hget | intros schema].
  apply preserves_bind; [| intros _; apply Hget].
  destruct (is_None schema); [| intros w r w' H; now inversion H].
  apply preserves_bind; [apply Hget | intros table_name].
  apply preserves_bind.
  - intros w r w' H [Hl Hd].
    destruct (cfg_item_frame _ _ _ _ t H Hl) as [Hl' Hh].
    split; [exact Hl' |]. unfold dict_of in *. now rewrite Hh.
  - intros v w r w' H [Hl Hd].
    assert (Hw : w' = snd (setattr t "schema" v w)) by now inversion H.
    rewrite Hw. split; [exact Hl |]. now rewrite dict_of_setattr_other.
Qed.

(** X14.  The constructor of src/bigquery/table.py never assigns
    [dataset_id], and nothing it calls resolves it.  So for every descriptor
    it returns, whatever its arguments and whatever the configuration,
    [get_dataset_id] looks nothing up: it raises [AttributeError], or, when a
    column called [dataset_id] has left its name in the attribute, returns the
    string [dataset_id]. *)
Theorem Table_new_never_resolves_dataset_id
        (name : string) (table_id schema location : pyval) (w : world)
        (t : nat) (w' : world) :
  Table.new name table_id schema location w = (inr t, w') ->
  Table.get_dataset_id t w' = (inl (AttributeError "dataset_id"), w') \/
  Table.get_dataset_id t w' = (inr (PStr "dataset_id"), w').
Proof.
  intros H. rewrite Table_new_unfold in H.
  pose proof (Table_attributes_set_dict name table_id schema location w) as Hdict.
  set (self := next_loc w) in *.
  set (W0 := Table_attributes_set name table_id schema location w) in *.
  assert (H0 : dataset_id_unresolved self W0).
  { split; [unfold self, W0; cbn; lia |]. left. rewrite Hdict. reflexivity. }
  apply bind_inv in H as [(e & _ & He) | ([] & w1 & H & H')]; [discriminate |].
  inversion H'; subst t w1. clear H'.
  rewrite call_method_free in H by (rewrite Hdict; reflexivity).
  unfold Table.attr_columns in H.
  apply bind_inv in H as [(e & _ & He) | (v & w2 & Hs & Hloop)]; [discriminate |].
  rewrite call_method_free in Hs by (rewrite Hdict; reflexivity).
  pose proof (dataset_id_unresolved_get_table_schema self _ _ _ Hs H0) as H2.
  pose proof (preserves_attr_columns_loop (dataset_id_unresolved self) self v
                ltac:(intros s w0; apply dataset_id_unresolved_setattr)
                _ _ _ Hloop H2) as [_ [Hd | Hd]].
  - left. now apply get_dataset_id_without_attribute.
  - right. now apply (cached_accessors_set self w' (PStr "dataset_id") eq_refl).
Qed.

(** The [events] descriptor: no [dataset_id] although the configuration has
    one. *)
Lemma Table_new_never_resolves_dataset_id_witness :
  Table.get_dataset_id 0 events_table_world
  = (inl (AttributeError "dataset_id"), events_table_world) \/
  Table.get_dataset_id 0 events_table_world
  = (inr (PStr "dataset_id"), events_table_world).
Proof.
  apply (Table_new_never_resolves_dataset_id "events" PNone PNone PNone
           (start events_fs ready_remote) 0 events_table_world).
  vm_compute. reflexivity.
Defined.

(** X15.  [load_data_to_bigquery] asks the descriptor for its dataset id
    first.  Given a descriptor of src/bigquery/table.py without a
    [dataset_id] attribute, it raises [AttributeError] there and then: no
    request is sent, nothing is printed, nothing is looked up and the world is
    as before. *)
Theorem load_with_cached_Table_raises (data : DataFrame) (t : nat) (o : pyobj)
        (w : world) :
  heap w !! t = Some o ->
  cls o = TableClass ->
  attrs o !! "get_dataset_id" = None ->
  attrs o !! "dataset_id" = None ->
  BigQuery.load_data_to_bigquery data t w = (inl (AttributeError "dataset_id"), w).
Proof.
  intros Ho Hc Hm Hd.
  unfold BigQuery.load_data_to_bigquery. apply bind_inl.
  unfold BigQuery.table_method.
  erewrite bind_inr by reflexivity. cbn beta.
  rewrite call_method_free by (unfold dict_of; now rewrite Ho).
  rewrite Ho. cbn. rewrite Hc.
  apply get_dataset_id_without_attribute. unfold dict_of. now rewrite Ho.
Qed.

(** Loading the sample frame through the [events] descriptor of
    src/bigquery/table.py. *)
Lemma load_with_cached_Table_raises_witness :
  BigQuery.load_data_to_bigquery sample_frame 0 events_table_world
  = (inl (AttributeError "dataset_id"), events_table_world).
Proof.
  destruct (heap events_table_world !! 0) as [o |] eqn:Ho;
    [| vm_compute in Ho; discriminate].
  apply (load_with_cached_Table_raises sample_frame 0 o events_table_world Ho).
  - vm_compute in Ho. inversion Ho. reflexivity.
  - vm_compute in Ho. inversion Ho. vm_compute. reflexivity.
  - vm_compute in Ho. inversion Ho. vm_compute. reflexivity.
Defined.

(** ** What a computation prints *)

Lemma silent_bind {A B} (m : M A) (k : A -> M B) :
  silent m -> (forall a, silent (k a)) -> silent (bind m k).
Proof.
  intros Hm Hk w r w' H.
  apply bind_inv in H as [(e & H & _) | (a & w1 & H & H')].
  - eauto.
  - rewrite (Hk _ _ _ _ H'). eauto.
Qed.

Lemma silent_ret {A} (a : A) : silent (ret a).
Proof. intros w r w' H. now inversion H. Qed.

Lemma silent_raise {A} e : silent (@raise A e).
Proof. intros w r w' H. now inversion H. Qed.

Lemma silent_lift {A} (x : exn + A) : silent (lift x).
Proof. intros w r w' H. now inversion H. Qed.

Lemma silent_gets {A} (f : world -> A) : silent (gets f).
Proof. intros w r w' H. now inversion H. Qed.

Lemma silent_modify (f : world -> world) :
  (forall w, stdout (f w) = stdout w) -> silent (modify f).
Proof. intros Hf w r w' H. inversion H. apply Hf. Qed.

Lemma silent_getattr l name : silent (getattr l name).
Proof. intros w r w' H. now rewrite (getattr_world _ _ _ _ _ H). Qed.

Lemma silent_setattr l name v : silent (setattr l name v).
Proof. apply silent_modify. now intros w. Qed.

Lemma silent_new_object c : silent (new_object c).
Proof. intros w r w' H. now inversion H. Qed.

Lemma silent_open_json_load path : silent (open_json_load path).
Proof. intros w r w' H. now inversion H. Qed.

Lemma silent_construct c : silent (construct c).
Proof.
  intros w r w'. unfold construct.
  destruct (library w c); intros H; now inversion H.
Qed.

Lemma silent_call_method {A} l name (body : M A) :
  silent body -> silent (call_method l name body).
Proof.
  intros Hb w r w'. unfold call_method.
  destruct (dict_of l w !! name); [intros H; now inversion H | apply Hb].
Qed.

Create HintDb silent_db.
#[local] Hint Resolve silent_ret silent_raise silent_lift silent_gets silent_getattr
  silent_setattr silent_new_object silent_open_json_load silent_call_method
  silent_construct : silent_db.

Ltac silent_steps :=
  repeat match goal with
         | |- silent (bind _ _) => apply silent_bind; [| intros ?]
         | |- silent (match ?x with _ => _ end) => destruct x
         | |- silent (if ?x then _ else _) => destruct x
         | |- silent (modify _) => apply silent_modify; now intros ?
         | |- silent (call_method _ _ _) => apply silent_call_method
         | |- _ => solve [eauto with silent_db]
         end.

Lemma silent_cfg_item items : silent (cfg_item items).
Proof.
  unfold cfg_item, Config.instance, Config.new, Config.__init__. silent_steps.
Qed.

#[local] Hint Resolve silent_cfg_item : silent_db.

Lemma silent_table_method (table : nat) :
  silent (BigQuery.table_method table "get_dataset_id"
            PlainTable.get_dataset_id Table.get_dataset_id) /\
  silent (BigQuery.table_method table "get_table_id"
            PlainTable.get_table_id Table.get_table_id) /\
  silent (BigQuery.table_method table "get_table_schema"
            PlainTable.get_table_schema Table.get_table_schema).
Proof.
  unfold BigQuery.table_method,
    PlainTable.get_dataset_id, PlainTable.get_table_id, PlainTable.get_table_schema,
    Table.get_dataset_id, Table.get_table_id, Table.get_table_schema.
  split; [| split]; silent_steps.
Qed.

(** ** What a computation asks of the client library *)

Lemma static_bind {A B} (m : M A) (k : A -> M B) :
  static m -> (forall a, static (k a)) -> static (bind m k).
Proof.
  intros Hm Hk w r w' H.
  apply bind_inv in H as [(e & H & _) | (a & w1 & H & H')].
  - eauto.
  - rewrite (Hk _ _ _ _ H'). eauto.
Qed.

Lemma static_ret {A} (a : A) : static (ret a).
Proof. intros w r w' H. now inversion H. Qed.

Lemma static_raise {A} e : static (@raise A e).
Proof. intros w r w' H. now inversion H. Qed.

Lemma static_lift {A} (x : exn + A) : static (lift x).
Proof. intros w r w' H. now inversion H. Qed.

Lemma static_gets {A} (f : world -> A) : static (gets f).
Proof. intros w r w' H. now inversion H. Qed.

Lemma static_modify (f : world -> world) :
  (forall w, library (f w) = library w) -> static (modify f).
Proof. intros Hf w r w' H. inversion H. apply Hf. Qed.

Lemma static_getattr l name : static (getattr l name).
Proof. intros w r w' H. now rewrite (getattr_world _ _ _ _ _ H). Qed.

Lemma static_setattr l name v : static (setattr l name v).
Proof. apply static_modify. now intros w. Qed.

Lemma static_new_object c : static (new_object c).
Proof. intros w r w' H. now inversion H. Qed.

Lemma static_open_json_load path : static (open_json_load path).
Proof. intros w r w' H. now inversion H. Qed.

Lemma static_call_method {A} l name (body : M A) :
  static body -> static (call_method l name body).
Proof.
  intros Hb w r w'. unfold call_method.
  destruct (dict_of l w !! name); [intros H; now inversion H | apply Hb].
Qed.

Create HintDb static_db.
#[local] Hint Resolve static_ret static_raise static_lift static_gets static_getattr
  static_setattr static_new_object static_open_json_load static_call_method
  : static_db.

Ltac static_steps :=
  repeat match goal with
         | |- static (bind _ _) => apply static_bind; [| intros ?]
         | |- static (match ?x with _ => _ end) => destruct x
         | |- static (if ?x then _ else _) => destruct x
         | |- static (modify _) => apply static_modify; now intros ?
         | |- static (call_method _ _ _) => apply static_call_method
         | |- _ => solve [eauto with static_db]
         end.

Lemma static_cfg_item items : static (cfg_item items).
Proof.
  unfold cfg_item, Config.instance, Config.new, Config.__init__. static_steps.
Qed.

#[local] Hint Resolve static_cfg_item : static_db.

Lemma static_table_method (table : nat) :
  static (BigQuery.table_method table "get_dataset_id"
            PlainTable.get_dataset_id Table.get_dataset_id) /\
  static (BigQuery.table_method table "get_table_id"
            PlainTable.get_table_id Table.get_table_id) /\
  static (BigQuery.table_method table "get_table_schema"
            PlainTable.get_table_schema Table.get_table_schema).
Proof.
  unfold BigQuery.table_method,
    PlainTable.get_dataset_id, PlainTable.get_table_id, PlainTable.get_table_schema,
    Table.get_dataset_id, Table.get_table_id, Table.get_table_schema.
  split; [| split]; static_steps.
Qed.

(** ** The requests of [load_data_to_bigquery] *)

Lemma request_run c w r w' :
  request c w = (r, w') ->
  w' = set_remote_log (remote_log w ++ [c]) w /\
  r = match remote w (remote_log w) c with
      | None => inr tt
      | Some e => inl e
      end.
Proof.
  unfold request. destruct (remote w (remote_log w) c);
    intros H; inversion H; subst; split; reflexivity.
Qed.

Lemma table_method_quiet table w :
  (forall r w', BigQuery.table_method table "get_dataset_id"
                  PlainTable.get_dataset_id Table.get_dataset_id w = (r, w') ->
                quiet_step w w') /\
  (forall r w', BigQuery.table_method table "get_table_id"
                  PlainTable.get_table_id Table.get_table_id w = (r, w') ->
                quiet_step w w') /\
  (forall r w', BigQuery.table_method table "get_table_schema"
                  PlainTable.get_table_schema Table.get_table_schema w = (r, w') ->
                quiet_step w w').
Proof.
  destruct (silent_table_method table) as (S1 & S2 & S3).
  destruct (static_table_method table) as (L1 & L2 & L3).
  split; [| split]; intros r w' H.
  - destruct (appends_nothing _ _ _ _
                (appends_table_method nothing table _ _ _
                   (fun self => proj1 (appends_PlainTable nothing self))
                   (fun self => proj1 (appends_Table nothing self))) H) as [Hr Hl].
    repeat split; eauto.
  - destruct (appends_nothing _ _ _ _
                (appends_table_method nothing table _ _ _
                   (fun self => proj1 (proj2 (appends_PlainTable nothing self)))
                   (fun self => proj1 (proj2 (appends_Table nothing self)))) H)
      as [Hr Hl].
    repeat split; eauto.
  - destruct (appends_nothing _ _ _ _
                (appends_table_method nothing table _ _ _
                   (fun self => proj2 (proj2 (appends_PlainTable nothing self)))
                   (fun self => proj2 (proj2 (appends_Table nothing self)))) H)
      as [Hr Hl].
    repeat split; eauto.
Qed.

Lemma is_NotFound_true e : is_NotFound e = true -> e = NotFound.
Proof. destruct e; try discriminate. reflexivity. Qed.

(** The dataset stage, outcome by outcome: what the service answers to the
    check, what the library answers to the construction of the dataset, what
    the service answers to its creation. *)
Lemma dataset_stage_run d w :
  let asked := set_remote_log (remote_log w ++ [GetDataset d]) w in
  let created :=
    set_remote_log
      (remote_log w ++ [GetDataset d; CreateDataset (mkDataset d (Some "US"))]) w in
  dataset_stage d w
  = match remote w (remote_log w) (GetDataset d) with
    | None => (inr tt, asked)
    | Some NotFound =>
        match library w (NewDataset d) with
        | Some e => (inl e, asked)
        | None =>
            match remote w (remote_log w ++ [GetDataset d])
                    (CreateDataset (mkDataset d (Some "US"))) with
            | None => (inr tt, created)
            | Some e => (inl e, created)
            end
        end
    | Some e => (inl e, asked)
    end.
Proof.
  cbv zeta. unfold dataset_stage, try_except_NotFound, request.
  destruct (remote w (remote_log w) (GetDataset d)) as [e |]; [| reflexivity].
  destruct e; try reflexivity.
  cbn. unfold bind, construct. cbn.
  destruct (library w (NewDataset d)); [reflexivity |].
  unfold set_remote_log. cbn. rewrite <- app_assoc. cbn.
  destruct (remote w _ _); reflexivity.
Qed.

Lemma load_unfold data table w :
  BigQuery.load_data_to_bigquery data table w
  = (do dataset_id <- BigQuery.table_method table "get_dataset_id"
                        PlainTable.get_dataset_id Table.get_dataset_id;
     do table_id <- BigQuery.table_method table "get_table_id"
                      PlainTable.get_table_id Table.get_table_id;
     dataset_stage dataset_id ;;
     do schema <- BigQuery.table_method table "get_table_schema"
                    PlainTable.get_table_schema Table.get_table_schema;
     do job_config <- BigQuery.job_config schema table_id;
     request (LoadTableFromDataframe data table_id job_config) ;;
     request JobResult) w.
Proof. reflexivity. Qed.

Lemma job_config_run s t w :
  let w1 := set_remote_log (remote_log w ++ [GetTable t]) w in
  let chosen disposition :=
    let w2 := set_stdout (stdout w ++ [disposition_line disposition]) w1 in
    match library w (NewLoadJobConfig s disposition) with
    | None => (inr (mkLoadJobConfig s disposition), w2)
    | Some e => (inl e, w2)
    end in
  BigQuery.job_config s t w
  = match remote w (remote_log w) (GetTable t) with
    | None => chosen WRITE_APPEND
    | Some NotFound => chosen WRITE_EMPTY
    | Some e => (inl e, w1)
    end.
Proof.
  cbv zeta.
  unfold BigQuery.job_config, BigQuery.check_table_exists,
    try_except_NotFound, bind, request, print, modify, construct, ret.
  destruct (remote w (remote_log w) (GetTable t)) as [e |]; cbn.
  - destruct e; cbn; try reflexivity.
    destruct (library w (NewLoadJobConfig s WRITE_EMPTY)); reflexivity.
  - destruct (library w (NewLoadJobConfig s WRITE_APPEND)); reflexivity.
Qed.

Lemma dataset_stage_returns d w w' :
  dataset_stage d w = (inr tt, w') ->
  exists created,
    w' = set_remote_log (remote_log w ++ GetDataset d :: created) w /\
    (created = [] /\ remote w (remote_log w) (GetDataset d) = None \/
     created = [CreateDataset (mkDataset d (Some "US"))] /\
     remote w (remote_log w) (GetDataset d) = Some NotFound /\
     library w (NewDataset d) = None).
Proof.
  pose proof (dataset_stage_run d w) as Hrun. cbv zeta in Hrun. rewrite Hrun.
  destruct (remote w (remote_log w) (GetDataset d)) as [e |].
  - destruct e; try discriminate.
    destruct (library w (NewDataset d)); [discriminate |].
    destruct (remote w _ _); [discriminate |].
    intros H. inversion H. exists [CreateDataset (mkDataset d (Some "US"))]. auto.
  - intros H. inversion H. exists []. auto.
Qed.

Lemma job_config_returns s t w cfg w' :
  BigQuery.job_config s t w = (inr cfg, w') ->
  exists disposition,
    cfg = mkLoadJobConfig s disposition /\
    w' = set_stdout (stdout w ++ [disposition_line disposition])
           (set_remote_log (remote_log w ++ [GetTable t]) w) /\
    library w (NewLoadJobConfig s disposition) = None /\
    (disposition = WRITE_APPEND /\ remote w (remote_log w) (GetTable t) = None \/
     disposition = WRITE_EMPTY /\
     remote w (remote_log w) (GetTable t) = Some NotFound).
Proof.
  pose proof (job_config_run s t w) as Hrun. cbv zeta in Hrun. rewrite Hrun.
  destruct (remote w (remote_log w) (GetTable t)) as [e |].
  - destruct e; try discriminate.
    destruct (library w (NewLoadJobConfig s WRITE_EMPTY)) eqn:Hl; [discriminate |].
    intros H. inversion H; subst. exists WRITE_EMPTY.
    split; [reflexivity |]. split; [reflexivity |]. split; [exact Hl |]. now right.
  - destruct (library w (NewLoadJobConfig s WRITE_APPEND)) eqn:Hl; [discriminate |].
    intros H. inversion H; subst. exists WRITE_APPEND.
    split; [reflexivity |]. split; [reflexivity |]. split; [exact Hl |]. now left.
Qed.

(** X16.  Every run of [load_data_to_bigquery] that returns has asked the
    descriptor for its dataset id [d] and its table id [t], and has sent, in
    this order and nothing else: the dataset check for [d]; the creation of
    [d] in [US] exactly when the check was answered [NotFound] (the library
    having built the dataset); the lookup of [t]; one load job with the frame
    it was given, [t] and the schema [s] that the descriptor returned after
    the dataset stage, under [WRITE_APPEND] when the lookup found the table
    and under [WRITE_EMPTY] when it was answered [NotFound] (the library
    having built the configuration); and the wait for the job.  It has
    printed exactly one line, the one that goes with the disposition. *)
Theorem load_success_trace (data : DataFrame) (table : nat) (w w' : world) :
  BigQuery.load_data_to_bigquery data table w = (inr tt, w') ->
  exists d t s created disposition w1 w2 w4,
    let before := (remote_log w ++ GetDataset d :: created)%list in
    BigQuery.table_method table "get_dataset_id"
      PlainTable.get_dataset_id Table.get_dataset_id w = (inr d, w1) /\
    BigQuery.table_method table "get_table_id"
      PlainTable.get_table_id Table.get_table_id w1 = (inr t, w2) /\
    BigQuery.table_method table "get_table_schema"
      PlainTable.get_table_schema Table.get_table_schema
      (set_remote_log before w2) = (inr s, w4) /\
    remote_log w'
    = (before ++ [GetTable t;
                  LoadTableFromDataframe data t (mkLoadJobConfig s disposition);
                  JobResult])%list /\
    (created = [] /\ remote w (remote_log w) (GetDataset d) = None \/
     created = [CreateDataset (mkDataset d (Some "US"))] /\
     remote w (remote_log w) (GetDataset d) = Some NotFound /\
     library w (NewDataset d) = None) /\
    (disposition = WRITE_APPEND /\ remote w before (GetTable t) = None \/
     disposition = WRITE_EMPTY /\ remote w before (GetTable t) = Some NotFound) /\
    library w (NewLoadJobConfig s disposition) = None /\
    stdout w' = (stdout w ++ [disposition_line disposition])%list.
Proof.
  intros H. rewrite load_unfold in H.
  apply bind_inv in H as [(e & _ & He) | (d & w1 & H1 & H)]; [discriminate |].
  destruct (proj1 (table_method_quiet table w) _ _ H1) as (Hr1 & Hl1 & Ho1 & Hb1).
  apply bind_inv in H as [(e & _ & He) | (t & w2 & H2 & H)]; [discriminate |].
  destruct (proj1 (proj2 (table_method_quiet table w1)) _ _ H2)
    as (Hr2 & Hl2 & Ho2 & Hb2).
  apply bind_inv in H as [(e & _ & He) | ([] & w3 & H3 & H)]; [discriminate |].
  destruct (dataset_stage_returns _ _ _ H3) as (created & -> & Hc).
  rewrite Hr2, Hr1, Hb2, Hb1, Hl2, Hl1 in Hc.
  rewrite Hl2, Hl1 in H.
  apply bind_inv in H as [(e & _ & He) | (s & w4 & H4 & H)]; [discriminate |].
  destruct (proj2 (proj2 (table_method_quiet table _)) _ _ H4)
    as (Hr4 & Hl4 & Ho4 & Hb4).
  cbn in Hr4, Hl4, Ho4, Hb4.
  apply bind_inv in H as [(e & _ & He) | (cfg & w5 & H5 & H)]; [discriminate |].
  destruct (job_config_returns _ _ _ _ _ H5) as (disp & -> & -> & Hlib & Hd).
  rewrite Hr4, Hr2, Hr1, Hl4 in Hd.
  rewrite Hb4, Hb2, Hb1 in Hlib.
  apply bind_inv in H as [(e & _ & He) | ([] & w6 & H6 & H7)]; [discriminate |].
  destruct (request_run _ _ _ _ H6) as (-> & _).
  destruct (request_run _ _ _ _ H7) as (-> & _).
  exists d, t, s, created, disp, w1, w2, w4. cbv zeta.
  split; [exact H1 |]. split; [exact H2 |]. split; [exact H4 |].
  split; [| split; [exact Hc | split; [exact Hd | split; [exact Hlib |]]]].
  - cbn. rewrite Hl4, <- !app_assoc. reflexivity.
  - cbn. congruence.
Qed.

(** The [events] descriptor of src/table.py over the configuration with the
    qualified dataset id, a service with neither the dataset nor the table:
    check, creation in [US], lookup, load under [WRITE_EMPTY], wait. *)
Lemma load_success_trace_witness :
  exists d t s created disposition w1 w2 w4,
    let before := (remote_log eu_plain_table_world ++ GetDataset d :: created)%list in
    BigQuery.table_method 0 "get_dataset_id"
      PlainTable.get_dataset_id Table.get_dataset_id eu_plain_table_world
    = (inr d, w1) /\
    BigQuery.table_method 0 "get_table_id"
      PlainTable.get_table_id Table.get_table_id w1 = (inr t, w2) /\
    BigQuery.table_method 0 "get_table_schema"
      PlainTable.get_table_schema Table.get_table_schema
      (set_remote_log before w2) = (inr s, w4) /\
    remote_log eu_loaded_world
    = (before ++ [GetTable t;
                  LoadTableFromDataframe sample_frame t (mkLoadJobConfig s disposition);
                  JobResult])%list /\
    (created = [] /\
     remote eu_plain_table_world (remote_log eu_plain_table_world) (GetDataset d) = None \/
     created = [CreateDataset (mkDataset d (Some "US"))] /\
     remote eu_plain_table_world (remote_log eu_plain_table_world) (GetDataset d)
     = Some NotFound /\
     library eu_plain_table_world (NewDataset d) = None) /\
    (disposition = WRITE_APPEND /\
     remote eu_plain_table_world before (GetTable t) = None \/
     disposition = WRITE_EMPTY /\
     remote eu_plain_table_world before (GetTable t) = Some NotFound) /\
    library eu_plain_table_world (NewLoadJobConfig s disposition) = None /\
    stdout eu_loaded_world
    = (stdout eu_plain_table_world ++ [disposition_line disposition])%list.
Proof.
  apply (load_success_trace sample_frame 0 eu_plain_table_world eu_loaded_world).
  vm_compute. reflexivity.
Defined.

(** ** Errors of the service *)

Lemma faithful_quiet {A} (m : M A) : appends nothing m -> faithful m.
Proof.
  intros Hm w r w' H. destruct (appends_nothing _ _ _ _ Hm H) as [Hr Hl].
  split; [exact Hr |]. exists []. split; [now rewrite app_nil_r |].
  intros before c after e Hs. destruct before; discriminate.
Qed.

Lemma singleton_split {A} (c c' : A) before after :
  [c] = (before ++ c' :: after)%list -> before = [] /\ c' = c /\ after = [].
Proof.
  destruct before as [| x before]; cbn; intros H; inversion H; subst; auto.
  destruct before; discriminate.
Qed.

Lemma faithful_request c : faithful (request c).
Proof.
  intros w r w' H. destruct (request_run _ _ _ _ H) as (-> & Ha).
  split; [reflexivity |]. exists [c]. split; [reflexivity |].
  intros before c' after e Hs He.
  apply singleton_split in Hs as (-> & -> & ->).
  rewrite app_nil_r in He. rewrite He in Ha. now left.
Qed.

Lemma faithful_bind {A B} (m : M A) (k : A -> M B) :
  faithful m -> (forall a, faithful (k a)) -> faithful (bind m k).
Proof.
  intros Hm Hk w r w' H.
  apply bind_inv in H as [(e & H & ->) | (a & w1 & H & H')].
  - destruct (Hm _ _ _ H) as (Hr & sent & Hl & Hs).
    split; [exact Hr |]. exists sent. split; [exact Hl |].
    intros before c after e' Hsplit He'.
    destruct (Hs _ _ _ _ Hsplit He') as [[-> Hre] | Hh]; [| now right].
    left. split; [reflexivity |]. now inversion Hre.
  - destruct (Hm _ _ _ H) as (Hr & sent1 & Hl & Hs).
    destruct (Hk _ _ _ _ H') as (Hr' & sent2 & Hl' & Hs').
    split; [congruence |]. exists (sent1 ++ sent2)%list. split.
    + rewrite Hl', Hl. now rewrite app_assoc.
    + intros before c after e Hsplit He.
      apply app_eq_app in Hsplit as (l & [[H1 H2] | [H1 H2]]).
      * destruct l as [| c0 l].
        -- cbn in H2. rewrite app_nil_r in H1. subst before.
           apply (Hs' [] c after e); [now rewrite <- H2 |].
           now rewrite Hr, Hl, app_nil_r.
        -- cbn in H2. inversion H2; subst c0 after.
           destruct (Hs before c l e H1 He) as [[_ Habs] | Hh];
             [discriminate | now right].
      * subst before. apply (Hs' l c after e H2).
        now rewrite Hr, Hl, <- app_assoc.
Qed.

(** A [try] whose body is one request that the wrapper may handle, and whose
    handler lets errors surface. *)
Lemma faithful_try_request {A} c (body handler : M A) :
  handled c NotFound ->
  (forall w r w', body w = (r, w') ->
                  w' = set_remote_log (remote_log w ++ [c]) w /\
                  forall e, remote w (remote_log w) c = Some e -> r = inl e) ->
  faithful handler ->
  faithful (try_except_NotFound body handler).
Proof.
  intros Hc Hbody Hh w r w'. unfold try_except_NotFound.
  destruct (body w) as [r1 w1] eqn:Hb.
  destruct (Hbody _ _ _ Hb) as (-> & Ha).
  assert (Hone : forall before c' after e,
             [c] = (before ++ c' :: after)%list ->
             remote w (remote_log w ++ before) c' = Some e ->
             r1 = inl e /\ after = []).
  { intros before c' after e Hs He.
    apply singleton_split in Hs as (-> & -> & ->).
    rewrite app_nil_r in He. auto. }
  destruct r1 as [e1 | a].
  - destruct (is_NotFound e1) eqn:He1.
    + apply is_NotFound_true in He1. subst e1. intros Hrun.
      destruct (Hh _ _ _ Hrun) as (Hr & sent & Hl & Hs). cbn in Hr, Hl.
      split; [exact Hr |]. exists (c :: sent). split.
      * rewrite Hl, <- app_assoc. reflexivity.
      * intros before c' after e Hsplit He.
        destruct before as [| c0 before]; cbn in Hsplit;
          injection Hsplit as Hc0 Hrest.
        -- subst c'. rewrite app_nil_r in He.
           pose proof (Ha _ He) as Heq. inversion Heq; subst e. now right.
        -- subst c0. apply (Hs before c' after e Hrest).
           cbn. now rewrite <- app_assoc.
    + intros H. inversion H; subst.
      split; [reflexivity |]. exists [c]. split; [reflexivity |].
      intros before c' after e Hs He.
      destruct (Hone _ _ _ _ Hs He) as (Heq & ->).
      now left.
  - intros H. inversion H; subst.
    split; [reflexivity |]. exists [c]. split; [reflexivity |].
    intros before c' after e Hs He.
    destruct (Hone _ _ _ _ Hs He) as (Heq & _). discriminate.
Qed.

Lemma faithful_dataset_stage d : faithful (dataset_stage d).
Proof.
  unfold dataset_stage.
  apply (faithful_try_request (GetDataset d)).
  - split; [reflexivity | left; eauto].
  - intros w r w' H. destruct (request_run _ _ _ _ H) as (-> & Ha).
    split; [reflexivity |]. intros e He. now rewrite He in Ha.
  - apply faithful_bind; [| intros _; apply faithful_request].
    apply faithful_quiet, appends_construct.
Qed.

Lemma faithful_job_config schema table_id :
  faithful (BigQuery.job_config schema table_id).
Proof.
  unfold BigQuery.job_config.
  apply faithful_bind.
  - unfold BigQuery.check_table_exists.
    apply (faithful_try_request (GetTable table_id)).
    + split; [reflexivity | right; eauto].
    + intros w r w' H.
      apply bind_inv in H as [(e & H & ->) | ([] & w1 & H & H')];
        destruct (request_run _ _ _ _ H) as (Hw & Ha).
      * split; [exact Hw |]. intros e' He'. rewrite He' in Ha.
        inversion Ha. reflexivity.
      * inversion H'; subst. split; [reflexivity |].
        intros e' He'. rewrite He' in Ha. discriminate.
    + apply faithful_quiet, appends_ret.
  - intros [|];
      (apply faithful_bind; [apply faithful_quiet, appends_print | intros _]);
      (apply faithful_bind; [apply faithful_quiet, appends_construct | intros _]);
      apply faithful_quiet, appends_ret.
Qed.

Lemma faithful_load data table :
  faithful (BigQuery.load_data_to_bigquery data table).
Proof.
  intros w r w'. rewrite load_unfold. revert w r w'.
  apply faithful_bind; [| intros dataset_id].
  { apply faithful_quiet, appends_table_method; intros self;
      first [apply appends_PlainTable | apply appends_Table]. }
  apply faithful_bind; [| intros table_id].
  { apply faithful_quiet, appends_table_method; intros self;
      first [apply appends_PlainTable | apply appends_Table]. }
  apply faithful_bind; [apply faithful_dataset_stage | intros _].
  apply faithful_bind; [| intros schema].
  { apply faithful_quiet, appends_table_method; intros self;
      first [apply appends_PlainTable | apply appends_Table]. }
  apply faithful_bind; [apply faithful_job_config | intros cfg].
  apply faithful_bind; [| intros _]; apply faithful_request.
Qed.



(** ** C9: [create_table] *)

(** C9, as stated, fails: the constructor of the table object checks its
    arguments, and for the bare table name [events] it raises. *)
Lemma create_table_can_raise :
  ~ create_table_returns_None (PStr "events") events_schema
      (start events_fs ready_remote).
Proof. unfold create_table_returns_None. vm_compute. discriminate. Qed.

(** C9, amended.  For every table id and schema, [create_table] performs no
    remote call and has no observable effect, whether it returns or raises:
    the world after it is the world before it.  It builds a local table
    object and drops it; it returns [None] when the library builds the object
    and raises the error of the constructor when it does not. *)
Theorem create_table_no_effect (table_id schema : pyval) (w : world) :
  snd (BigQuery.create_table table_id schema w) = w /\
  remote_log (snd (BigQuery.create_table table_id schema w)) = remote_log w /\
  fst (BigQuery.create_table table_id schema w)
  = match library w (NewTable table_id schema) with
    | None => inr tt
    | Some e => inl e
    end.
Proof.
  unfold BigQuery.create_table, bind, construct, ret.
  destruct (library w (NewTable table_id schema)); repeat split.
Qed.

(** ** C1: [job_config] *)

Lemma check_table_exists_world table_id w r w1 :
  BigQuery.check_table_exists table_id w = (r, w1) ->
  w1 = set_remote_log (remote_log w ++ [GetTable table_id]) w.
Proof.
  unfold BigQuery.check_table_exists, try_except_NotFound, bind, request, ret.
  destruct (remote w (remote_log w) (GetTable table_id)) as [e |]; cbn.
  - destruct (is_NotFound e); intros H; now inversion H.
  - intros H; now inversion H.
Qed.

(** C1, as stated, fails: for a schema the library does not take, here the
    list of the column names, the existence check returns and [job_config]
    raises. *)
Lemma job_config_can_raise :
  ~ job_config_total names_only_schema (PStr "proj.ds1.events")
      (start events_fs ready_remote).
Proof.
  intros H. specialize (H true _ eq_refl). vm_compute in H. discriminate.
Qed.

(** C1, amended.  For every schema and table id: when the existence check
    returns, [job_config] prints its line and asks the library for a
    configuration with that schema, with [WRITE_APPEND] if the check returned
    [True] and [WRITE_EMPTY] if it returned [False]; it returns that
    configuration when the library builds it and raises the library's error
    when it does not.  These are the only configurations it returns; and when
    the check raises, [job_config] raises the same error and returns
    nothing. *)
Theorem job_config_by_existence (schema table_id : pyval) (w : world) :
  (forall b w1,
      BigQuery.check_table_exists table_id w = (inr b, w1) ->
      let disposition := if b then WRITE_APPEND else WRITE_EMPTY in
      let w2 := set_stdout (stdout w1 ++ [disposition_line disposition]) w1 in
      BigQuery.job_config schema table_id w
      = match library w (NewLoadJobConfig schema disposition) with
        | None => (inr (mkLoadJobConfig schema disposition), w2)
        | Some e => (inl e, w2)
        end) /\
  (forall cfg w2,
      BigQuery.job_config schema table_id w = (inr cfg, w2) ->
      exists b w1,
        BigQuery.check_table_exists table_id w = (inr b, w1) /\
        cfg = mkLoadJobConfig schema (if b then WRITE_APPEND else WRITE_EMPTY) /\
        library w (NewLoadJobConfig schema (if b then WRITE_APPEND else WRITE_EMPTY))
        = None) /\
  (forall e w1,
      BigQuery.check_table_exists table_id w = (inl e, w1) ->
      BigQuery.job_config schema table_id w = (inl e, w1)).
Proof.
  split; [| split].
  - intros b w1 H. cbv zeta. unfold BigQuery.job_config.
    rewrite (bind_inr _ _ _ _ _ H).
    rewrite (check_table_exists_world _ _ _ _ H).
    unfold bind, print, modify, construct, ret.
    destruct b; cbn;
      match goal with |- context [library w ?c] => destruct (library w c) end;
      reflexivity.
  - intros cfg w2 H. unfold BigQuery.job_config in H.
    apply bind_inv in H as [(e & _ & He) | (b & w1 & Hc & Hk)]; [discriminate |].
    exists b, w1. split; [exact Hc |].
    rewrite (check_table_exists_world _ _ _ _ Hc) in Hk.
    unfold bind, print, modify, construct, ret in Hk.
    destruct b; cbn in Hk;
      match type of Hk with context [library w ?c] =>
        destruct (library w c) eqn:Hl end;
      inversion Hk; auto.
  - intros e w1 H. unfold BigQuery.job_config. now rewrite (bind_inl _ _ _ _ _ H).
Qed.

(** An existing table is appended to; a missing one is created under the
    empty-write guard. *)
Lemma job_config_by_existence_witness :
  fst (BigQuery.job_config events_schema (PStr "proj.ds1.events")
         (start events_fs ready_remote))
  = inr (mkLoadJobConfig events_schema WRITE_APPEND) /\
  fst (BigQuery.job_config events_schema (PStr "proj.ds1.events")
         (start events_fs fresh_remote))
  = inr (mkLoadJobConfig events_schema WRITE_EMPTY).
Proof.
  split.
  - rewrite (proj1 (job_config_by_existence events_schema (PStr "proj.ds1.events")
                      (start events_fs ready_remote)) true _ eq_refl).
    reflexivity.
  - rewrite (proj1 (job_config_by_existence events_schema (PStr "proj.ds1.events")
                      (start events_fs fresh_remote)) false _ eq_refl).
    reflexivity.
Defined.

(** ** C4: where [NotFound] is caught *)

(** C4, as stated, fails on its last part: the existence check is not the
    only place that catches [NotFound].  In this run the dataset check is
    answered [NotFound], and the load goes on and returns. *)
Lemma NotFound_is_caught_twice :
  ~ NotFound_caught_only_by_existence_check
      (BigQuery.load_data_to_bigquery sample_frame 0) eu_plain_table_world.
Proof.
  intros H.
  destruct (H [] (GetDataset (PStr "proj.ds1"))
              (skipn 1 (remote_log eu_loaded_world))) as [[t Ht] | Hr].
  - vm_compute. reflexivity.
  - reflexivity.
  - discriminate.
  - vm_compute in Hr. discriminate.
Qed.

(** C4, amended.  [check_table_exists] sends exactly one request, the lookup
    of the table.  If the lookup succeeds it returns [True]; if the lookup
    signals [NotFound] it returns [False]; every other failure is raised to
    the caller unchanged.  So its caller [job_config] raises either such a
    failure of the lookup, never its [NotFound], or the error of the library
    that refused the configuration.  [NotFound] is caught at one more place,
    the dataset check of [load_data_to_bigquery], which answers it by creating
    the dataset; in every run of the load, a request answered [NotFound] is
    the table lookup, or the dataset check, or the last request of the run
    with [NotFound] raised to the caller. *)
Theorem check_table_exists_boundary (table_id : pyval) (w : world) :
  let answer := remote w (remote_log w) (GetTable table_id) in
  let w' := set_remote_log (remote_log w ++ [GetTable table_id]) w in
  (answer = None -> BigQuery.check_table_exists table_id w = (inr true, w')) /\
  (answer = Some NotFound ->
   BigQuery.check_table_exists table_id w = (inr false, w')) /\
  (forall e, answer = Some e -> e <> NotFound ->
             BigQuery.check_table_exists table_id w = (inl e, w')) /\
  (forall schema e w2,
      BigQuery.job_config schema table_id w = (inl e, w2) ->
      (e <> NotFound /\ answer = Some e) \/
      (exists disposition,
          library w (NewLoadJobConfig schema disposition) = Some e /\
          (answer = None \/ answer = Some NotFound))) /\
  (forall data table r w2,
      BigQuery.load_data_to_bigquery data table w = (r, w2) ->
      exists sent,
        remote_log w2 = (remote_log w ++ sent)%list /\
        forall before c after,
          sent = (before ++ c :: after)%list ->
          remote w (remote_log w ++ before) c = Some NotFound ->
          (exists t, c = GetTable t) \/ (exists d, c = GetDataset d) \/
          (after = [] /\ r = inl NotFound)).
Proof.
  cbv zeta. split; [| split; [| split; [| split]]].
  - intros Ha.
    unfold BigQuery.check_table_exists, try_except_NotFound, bind, request, ret.
    now rewrite Ha.
  - intros Ha.
    unfold BigQuery.check_table_exists, try_except_NotFound, bind, request, ret.
    now rewrite Ha.
  - intros e Ha Hne.
    unfold BigQuery.check_table_exists, try_except_NotFound, bind, request, ret.
    rewrite Ha. destruct e; try reflexivity. now elim Hne.
  - intros schema e w2 H.
    pose proof (job_config_run schema table_id w) as Hrun. cbv zeta in Hrun.
    rewrite Hrun in H.
    destruct (remote w (remote_log w) (GetTable table_id)) as [e0 |].
    + destruct e0;
        try (inversion H; subst; left; split; [discriminate | reflexivity]).
      destruct (library w (NewLoadJobConfig schema WRITE_EMPTY)) eqn:Hl;
        inversion H; subst. right. exists WRITE_EMPTY. auto.
    + destruct (library w (NewLoadJobConfig schema WRITE_APPEND)) eqn:Hl;
        inversion H; subst. right. exists WRITE_APPEND. auto.
  - intros data table r w2 H.
    destruct (faithful_load data table _ _ _ H) as (_ & sent & Hl & Hs).
    exists sent. split; [exact Hl |].
    intros before c after Hsplit Ha.
    destruct (Hs _ _ _ _ Hsplit Ha) as [Hlast | (_ & [Hd | Ht])]; auto.
Qed.

(** A service that has the table, one that has not, and one that denies
    access: [True], [False], and the denial raised as it is. *)
Lemma check_table_exists_boundary_witness :
  fst (BigQuery.check_table_exists (PStr "proj.ds1.events")
         (start events_fs ready_remote)) = inr true /\
  fst (BigQuery.check_table_exists (PStr "proj.ds1.events")
         (start events_fs fresh_remote)) = inr false /\
  fst (BigQuery.check_table_exists (PStr "proj.ds1.events")
         (start events_fs denying_remote)) = inl (RemoteError 403).
Proof.
  split; [| split].
  - rewrite (proj1 (check_table_exists_boundary
                      (PStr "proj.ds1.events") (start events_fs ready_remote)));
      reflexivity.
  - rewrite (proj1 (proj2 (check_table_exists_boundary
                             (PStr "proj.ds1.events") (start events_fs fresh_remote))));
      reflexivity.
  - rewrite (proj1 (proj2 (proj2 (check_table_exists_boundary
                                    (PStr "proj.ds1.events")
                                    (start events_fs denying_remote))))
               (RemoteError 403));
      [reflexivity | reflexivity | discriminate].
Defined.

(** ** C3: the dataset created by [load_data_to_bigquery] *)





(** ** [transform_date_time], whatever its outcome *)

Lemma frame_get_error df c e : frame_get df c = inl e -> e = KeyError (PStr c).
Proof.
  induction df as [| [label s] df IH]; simpl.
  - intros H. now inversion H.
  - destruct (String.eqb label c); [discriminate | exact IH].
Qed.

(** X18.  Whether [transform_date_time] returns or raises, the frame it
    leaves has the labels of the frame it was given, in the same order, and
    every column that is not named in [date_columns] holds what it held. *)
Theorem transform_date_time_frame (to_datetime : series -> exn + series)
        (date_columns : list string) (df : DataFrame)
        (outcome : option exn) (df' : DataFrame) :
  transform_date_time to_datetime df date_columns = (outcome, df') ->
  map fst df' = map fst df /\
  (forall c, ~ In c date_columns -> frame_get df' c = frame_get df c).
Proof.
  revert df. induction date_columns as [| c cols IH]; simpl; intros df H.
  - inversion H; subst. auto.
  - destruct (frame_get df c) as [e | s] eqn:Hg.
    { inversion H; subst. auto. }
    destruct (to_datetime s) as [e | s'] eqn:Hd.
    { inversion H; subst. auto. }
    destruct (IH _ H) as [Hlab Hother]. split.
    + rewrite Hlab. eapply frame_set_labels; eauto.
    + intros c' Hn. rewrite Hother by tauto.
      apply frame_get_set_other. intros ->. tauto.
Qed.

(** The sample frame, with a second date column that does not exist: the
    call raises, and [val] and the labels are as before. *)
Lemma transform_date_time_frame_witness :
  let df' := snd (transform_date_time (cells_to_datetime two_dates) sample_frame
                    ["ts"; "day"]) in
  map fst df' = map fst sample_frame /\
  (forall c, ~ In c ["ts"; "day"] -> frame_get df' c = frame_get sample_frame c).
Proof.
  apply (transform_date_time_frame (cells_to_datetime two_dates) ["ts"; "day"]
           sample_frame (Some (KeyError (PStr "day")))).
  reflexivity.
Defined.

(** X19.  [transform_date_time] changes the frame in place and does not roll
    back.  When it raises, it has converted the columns named before the
    failing one and stopped there: the frame is the one a successful call with
    only those names leaves, and the error is the [KeyError] of a column the
    frame does not have, or the error of the conversion of the failing
    column. *)
Theorem transform_date_time_failure (to_datetime : series -> exn + series)
        (date_columns : list string) (df : DataFrame) (e : exn) (df' : DataFrame) :
  transform_date_time to_datetime df date_columns = (Some e, df') ->
  exists done c rest,
    date_columns = (done ++ c :: rest)%list /\
    transform_date_time to_datetime df done = (None, df') /\
    (frame_get df' c = inl e /\ e = KeyError (PStr c) \/
     exists s, frame_get df' c = inr s /\ to_datetime s = inl e).
Proof.
  revert df. induction date_columns as [| c cols IH]; simpl; intros df H;
    [discriminate |].
  destruct (frame_get df c) as [e0 | s] eqn:Hg.
  { inversion H; subst. exists [], c, cols. repeat split.
    left. split; [exact Hg | exact (frame_get_error _ _ _ Hg)]. }
  destruct (to_datetime s) as [e0 | s'] eqn:Hd.
  { inversion H; subst. exists [], c, cols. repeat split. right. eauto. }
  destruct (IH _ H) as (done & c' & rest & -> & Hrun & Hfail).
  exists (c :: done), c', rest. split; [reflexivity |]. split; [| exact Hfail].
  simpl. now rewrite Hg, Hd.
Qed.

(** The sample frame again: [ts] is converted, then [day] is missing. *)
Lemma transform_date_time_failure_witness :
  let df' := [("ts", [CTimestamp 86400000000000; CTimestamp 0; CNaT]);
              ("val", [CInt 7; CInt 8; CInt 9])] in
  exists done c rest,
    ["ts"; "day"; "val"] = (done ++ c :: rest)%list /\
    transform_date_time (cells_to_datetime two_dates) sample_frame done = (None, df') /\
    (frame_get df' c = inl (KeyError (PStr "day")) /\
     KeyError (PStr "day") = KeyError (PStr c) \/
     exists s, frame_get df' c = inr s /\
               cells_to_datetime two_dates s = inl (KeyError (PStr "day"))).
Proof.
  apply (transform_date_time_failure (cells_to_datetime two_dates)
           ["ts"; "day"; "val"] sample_frame).
  reflexivity.
Defined.

(** ** [create_bq_schema_from_json] *)

Lemma schema_fields_loop_spec accepts fields sfs :
  Forall2 field_view fields sfs ->
  Forall (fun sf => accepts (SchemaField_call sf) = None) sfs ->
  forall acc, schema_fields_loop accepts fields acc = inr (acc ++ sfs)%list.
Proof.
  induction 1 as [| field sf fields sfs (Hn & Ht & Hm & Hd) _ IH];
    intros Hacc acc; simpl.
  - now rewrite app_nil_r.
  - inversion Hacc as [| ? ? Hsf Hrest]; subst.
    unfold SchemaField_call in Hsf.
    rewrite Hn, Ht, Hm, Hd, Hsf, (IH Hrest), <- app_assoc. now destruct sf.
Qed.

Lemma schema_fields_loop_returns accepts fields :
  forall acc out,
    schema_fields_loop accepts fields acc = inr out ->
    exists sfs,
      out = (acc ++ sfs)%list /\
      Forall2 field_view fields sfs /\
      Forall (fun sf => accepts (SchemaField_call sf) = None) sfs.
Proof.
  induction fields as [| field fields IH]; simpl; intros acc out H.
  - inversion H; subst. exists []. split; [now rewrite app_nil_r |].
    split; constructor.
  - destruct (subscript field (PStr "name")) as [e | name] eqn:Hn; [discriminate |].
    destruct (subscript field (PStr "type")) as [e | type] eqn:Ht; [discriminate |].
    destruct (subscript field (PStr "mode")) as [e | mode] eqn:Hm; [discriminate |].
    destruct (py_get field "description" PNone) as [e | description] eqn:Hd;
      [discriminate |].
    destruct (accepts (NewSchemaField name type mode description)) as [e |] eqn:Ha;
      [discriminate |].
    destruct (IH _ _ H) as (sfs & -> & Hall & Hacc).
    exists (mkSchemaField name type mode description :: sfs). split; [| split].
    + now rewrite <- app_assoc.
    + constructor; [| exact Hall]. repeat split; assumption.
    + constructor; [exact Ha | exact Hacc].
Qed.

(** X20.  [create_bq_schema_from_json] makes one [SchemaField] call per field
    of the JSON schema, in order, with the name, the type and the mode of the
    field and its description as arguments, [None] standing in for a
    description that is absent.  It returns, with the objects of these calls,
    exactly when every field has the three required keys and the library
    accepts every call; and it changes nothing and sends nothing. *)
Theorem create_bq_schema_from_json_exact (fields : list pyval) (sfs : list SchemaField)
        (w : world) :
  (Forall2 field_view fields sfs /\
   Forall (fun sf => library w (SchemaField_call sf) = None) sfs <->
   BigQuery.create_bq_schema_from_json (PList fields) w = (inr sfs, w)) /\
  (forall r w', BigQuery.create_bq_schema_from_json (PList fields) w = (r, w') ->
                w' = w) /\
  (Forall2 field_view fields sfs ->
   length sfs = length fields /\
   Forall2 (fun field sf =>
              forall d, field = PDict d -> dict_get "description" d = None ->
                        sf_description sf = PNone) fields sfs).
Proof.
  unfold BigQuery.create_bq_schema_from_json, bind, lift, gets. cbn.
  split; [split | split].
  - intros [H Hacc]. now rewrite (schema_fields_loop_spec _ _ _ H Hacc []).
  - intros H.
    destruct (schema_fields_loop (library w) fields []) as [e | out] eqn:Hl;
      [discriminate |].
    destruct (schema_fields_loop_returns _ _ _ _ Hl) as (sfs' & Ho & Hall & Hacc).
    cbn in Ho. subst out. inversion H; subst. split; assumption.
  - intros r w' H. now inversion H.
  - intros H. split; [symmetry; eapply Forall2_length; eauto |].
    induction H as [| field sf fields sfs (_ & _ & _ & Hd) _ IH]; constructor;
      [| exact IH].
    intros d -> Hnone. cbn in Hd. rewrite Hnone in Hd. now inversion Hd.
Qed.

(** The [events] schema: two fields, neither with a description, both with
    a mode the library takes. *)
Lemma create_bq_schema_from_json_exact_witness :
  BigQuery.create_bq_schema_from_json events_schema (start events_fs ready_remote)
  = (inr [mkSchemaField (PStr "ts") (PStr "DATE") (PStr "NULLABLE") PNone;
          mkSchemaField (PStr "val") (PStr "FLOAT") (PStr "NULLABLE") PNone],
     start events_fs ready_remote).
Proof.
  apply (proj1 (proj1 (create_bq_schema_from_json_exact
                         [ts_column;
                          PDict [("name", PStr "val"); ("type", PStr "FLOAT");
                                 ("mode", PStr "NULLABLE")]]
                         [mkSchemaField (PStr "ts") (PStr "DATE") (PStr "NULLABLE") PNone;
                          mkSchemaField (PStr "val") (PStr "FLOAT") (PStr "NULLABLE") PNone]
                         (start events_fs ready_remote)))).
  split; repeat constructor.
Defined.

Lemma field_view_column_view fields sfs :
  Forall2 field_view fields sfs ->
  Forall2 column_view fields (map (fun sf => (sf_name sf, sf_field_type sf)) sfs).
Proof.
  induction 1 as [| field sf fields sfs (Hn & Ht & _) _ IH]; simpl; constructor;
    [split; assumption | exact IH].
Qed.

Lemma DATE_names_of_fields sfs :
  map fst (List.filter is_DATE (map (fun sf => (sf_name sf, sf_field_type sf)) sfs))
  = map sf_name (List.filter is_DATE_field sfs).
Proof.
  induction sfs as [| sf sfs IH]; simpl; [reflexivity |].
  unfold is_DATE at 1, is_DATE_field at 1. cbn [snd].
  destruct (py_eq_str (sf_field_type sf) "DATE"); simpl; now rewrite IH.
Qed.

(** X21.  The two readers of a schema agree on what they read: whenever
    [create_bq_schema_from_json] converts a schema, the names that
    [get_date_columns] returns for that schema are, in order, the [name]
    arguments of exactly those [SchemaField] calls whose [field_type] argument
    is the string [DATE]. *)
Theorem date_columns_are_DATE_fields (schema : pyval) (sfs : list SchemaField)
        (w w' : world) :
  BigQuery.create_bq_schema_from_json schema w = (inr sfs, w') ->
  date_columns_of schema = inr (map sf_name (List.filter is_DATE_field sfs)).
Proof.
  unfold BigQuery.create_bq_schema_from_json, bind, lift, gets, date_columns_of.
  destruct (py_iter schema) as [e | fields]; [discriminate |].
  destruct (schema_fields_loop (library w) fields []) as [e | out] eqn:Hl;
    [discriminate |].
  intros H. inversion H; subst.
  destruct (schema_fields_loop_returns _ _ _ _ Hl) as (sfs' & Ho & Hall & _).
  cbn in Ho. subst sfs'.
  rewrite (date_columns_loop_spec _ _ (field_view_column_view _ _ Hall)).
  cbn [app]. now rewrite DATE_names_of_fields.
Qed.

(** The [events] schema: its one [DATE] field is [ts]. *)
Lemma date_columns_are_DATE_fields_witness :
  date_columns_of events_schema
  = inr (map sf_name
           (List.filter is_DATE_field
              [mkSchemaField (PStr "ts") (PStr "DATE") (PStr "NULLABLE") PNone;
               mkSchemaField (PStr "val") (PStr "FLOAT") (PStr "NULLABLE") PNone])).
Proof.
  apply (date_columns_are_DATE_fields events_schema _
           (start events_fs ready_remote) (start events_fs ready_remote)).
  reflexivity.
Defined.

(** ** Paths that do not exist *)

(** X22.  Over a loaded configuration, a path fails where it first leaves
    the data, whatever follows in it: at a dictionary that lacks the next key
    [cfg_item] raises [KeyError] with that key, and at a string or a [null],
    which a path cannot enter by a string key, it raises [TypeError]. *)
Theorem cfg_item_missing_key (inst : nat) (data : pyval) (w : world)
        (p : list pyval) (k : string) (q : list pyval) :
  loaded inst data w ->
  (forall d, cfg_walk data p = inr (PDict d) ->
             dict_get k d = None ->
             fst (cfg_item (p ++ PStr k :: q)%list w) = inl (KeyError (PStr k))) /\
  (forall s, cfg_walk data p = inr (PStr s) ->
             fst (cfg_item (p ++ PStr k :: q)%list w) = inl TypeError) /\
  (cfg_walk data p = inr PNone ->
   fst (cfg_item (p ++ PStr k :: q)%list w) = inl TypeError).
Proof.
  intros Hl. rewrite (cfg_item_answers _ _ _ _ Hl). unfold looked_up. cbn [fst].
  rewrite cfg_walk_concat.
  split; [| split].
  - intros d -> Hk. cbn. now rewrite Hk.
  - intros s ->. reflexivity.
  - intros ->. reflexivity.
Qed.

(** In the [events] configuration: a table that is not listed, a key below
    the location string. *)
Lemma cfg_item_missing_key_witness :
  fst (cfg_item ([PStr "data"; PStr "tables"] ++ PStr "orders" :: [PStr "schema"])%list
         events_table_world)
  = inl (KeyError (PStr "orders")) /\
  fst (cfg_item ([PStr "data"; PStr "location"] ++ PStr "orders" :: [PStr "schema"])%list
         events_table_world)
  = inl TypeError.
Proof.
  assert (Hl : loaded 1 events_config events_table_world)
    by (split; vm_compute; reflexivity).
  split.
  - apply (proj1 (cfg_item_missing_key 1 events_config events_table_world
                    [PStr "data"; PStr "tables"] "orders" [PStr "schema"] Hl)
             [("events", PDict [("table_id", PStr "proj.ds1.events");
                                ("schema", events_schema)])]);
      reflexivity.
  - apply (proj1 (proj2 (cfg_item_missing_key 1 events_config events_table_world
                           [PStr "data"; PStr "location"] "orders" [PStr "schema"] Hl))
             "US").
    reflexivity.
Defined.
